(** * generate_finetune_jsonl: extraction and formatting pipeline

    A shallow embedding of [generate_finetune_jsonl.py] and the properties
    of its pipeline: conversation extraction, token-limit truncation,
    duplicate removal, empty filtering, chat-record formatting and the
    orchestration in [main].

    Modelling conventions.
    - A Python [str] is a [string]; each character stands for one code
      point below 256.
    - A value produced by [json.load] is a [value]; a [dict] is an
      association list in insertion order (the order [dict.items()] and
      iteration follow), with pairwise different keys.
    - A [float] is kept as the observations the program can make of it:
      its truth value and its two textual renderings.
    - Console output is not modelled; the counters it reports are kept.
    - [tiktoken] and the file system are parameters of the model; whether
      [tiktoken.get_encoding] raises is the same for every call of a run,
      and a write fails, if it does, when the file is opened. *)

From Stdlib Require Import ZArith Ascii.
From stdpp Require Import gmap strings list pretty.

Local Set Warnings "-register-all".

(** ** Python strings *)

Module PyStr.

(** [str.isspace] on one code point below 256 *)
Definition isspace (c : ascii) : bool :=
  let n := nat_of_ascii c in
  (Nat.leb 9 n && Nat.leb n 13) || (Nat.leb 28 n && Nat.leb n 32)
  || Nat.eqb n 133 || Nat.eqb n 160.

Fixpoint lstrip (s : string) : string :=
  match s with
  | EmptyString => EmptyString
  | String c r => if isspace c then lstrip r else s
  end.

Fixpoint rstrip (s : string) : string :=
  match s with
  | EmptyString => EmptyString
  | String c r =>
      match rstrip r with
      | EmptyString => if isspace c then EmptyString else String c EmptyString
      | r' => String c r'
      end
  end.

Definition strip (s : string) : string := rstrip (lstrip s).

(** truth value of a [str]: non-empty *)
Definition truthy (s : string) : bool :=
  match s with EmptyString => false | String _ _ => true end.

Fixpoint take (n : nat) (s : string) : string :=
  match n, s with
  | S n', String c r => String c (take n' r)
  | _, _ => EmptyString
  end.

(** the stop index of a slice [x[:n]] over a sequence of length [len] *)
Definition slice_stop (len : nat) (n : Z) : nat :=
  Z.to_nat (if (n <? 0)%Z then Z.of_nat len + n else n)%Z.

(** [s[:n]] *)
Definition slice_to (s : string) (n : Z) : string :=
  take (slice_stop (String.length s) n) s.

(** iterating a [str] yields its characters as one-character strings *)
Fixpoint chars (s : string) : list string :=
  match s with
  | EmptyString => []
  | String c r => String c EmptyString :: chars r
  end.

Fixpoint contains (c : ascii) (s : string) : bool :=
  match s with
  | EmptyString => false
  | String d r => Ascii.eqb c d || contains c r
  end.

Fixpoint join (sep : string) (l : list string) : string :=
  match l with
  | [] => EmptyString
  | [x] => x
  | x :: r => x +:+ sep +:+ join sep r
  end.

Definition hex_digit (n : nat) : ascii :=
  ascii_of_nat (if Nat.ltb n 10 then 48 + n else 87 + n).

(** two lower-case hexadecimal digits of a code point below 256 *)
Definition hex2 (c : ascii) : string :=
  let n := nat_of_ascii c in
  String (hex_digit (n / 16)) (String (hex_digit (n mod 16)) EmptyString).

Definition quote : ascii := ascii_of_nat 39.
Definition dquote : ascii := ascii_of_nat 34.
Definition backslash : ascii := ascii_of_nat 92.

(** [str.isprintable] on one code point from 128 to 255 *)
Definition high_printable (n : nat) : bool :=
  Nat.leb 161 n && negb (Nat.eqb n 173).

Definition repr_char (q c : ascii) : string :=
  let n := nat_of_ascii c in
  if Ascii.eqb c q || Ascii.eqb c backslash then String backslash (String c EmptyString)
  else if Nat.eqb n 9 then String backslash "t"
  else if Nat.eqb n 10 then String backslash "n"
  else if Nat.eqb n 13 then String backslash "r"
  else if Nat.ltb n 32 || Nat.eqb n 127 then String backslash ("x" +:+ hex2 c)
  else if Nat.ltb n 127 then String c EmptyString
  else if high_printable n then String c EmptyString
  else String backslash ("x" +:+ hex2 c).

Fixpoint repr_body (q : ascii) (s : string) : string :=
  match s with
  | EmptyString => EmptyString
  | String c r => repr_char q c +:+ repr_body q r
  end.

(** [repr(s)] *)
Definition repr (s : string) : string :=
  let q := if contains quote s && negb (contains dquote s) then dquote else quote in
  String q (repr_body q s +:+ String q EmptyString).

End PyStr.

(** [l[:n]] on a list *)
Definition list_slice_to {A} (l : list A) (n : Z) : list A :=
  take (PyStr.slice_stop (List.length l) n) l.

(** ** Values of the parsed export *)

Record pyfloat := PyFloatOf {
  float_truthy : bool;      (* [bool(x)] *)
  float_repr : string;      (* [repr(x)] *)
  float_json : string       (* the text [json.dumps] writes for it *)
}.

Inductive value :=
| PyNone
| PyBool (b : bool)
| PyInt (n : Z)
| PyFloat (x : pyfloat)
| PyStr (s : string)
| PyList (items : list value)
| PyDict (items : list (string * value)).

Definition truthy (v : value) : bool :=
  match v with
  | PyNone => false
  | PyBool b => b
  | PyInt n => negb (n =? 0)%Z
  | PyFloat x => float_truthy x
  | PyStr s => PyStr.truthy s
  | PyList l => match l with [] => false | _ => true end
  | PyDict d => match d with [] => false | _ => true end
  end.

Definition type_name (v : value) : string :=
  match v with
  | PyNone => "NoneType"
  | PyBool _ => "bool"
  | PyInt _ => "int"
  | PyFloat _ => "float"
  | PyStr _ => "str"
  | PyList _ => "list"
  | PyDict _ => "dict"
  end.

Fixpoint dict_lookup (d : list (string * value)) (k : string) : option value :=
  match d with
  | [] => None
  | (k', v) :: r => if String.eqb k k' then Some v else dict_lookup r k
  end.

(** [d.get(k, default)] on a dict *)
Definition dict_get (d : list (string * value)) (k : string) (default : value) : value :=
  match dict_lookup d k with Some v => v | None => default end.

(** [v == s] for a string literal [s] *)
Definition eq_str (v : value) (s : string) : bool :=
  match v with PyStr t => String.eqb t s | _ => false end.

(** [repr(v)] and [str(v)] *)
Fixpoint py_repr (v : value) : string :=
  match v with
  | PyNone => "None"
  | PyBool b => if b then "True" else "False"
  | PyInt n => pretty n
  | PyFloat x => float_repr x
  | PyStr s => PyStr.repr s
  | PyList l => "[" +:+ PyStr.join ", " (map py_repr l) +:+ "]"
  | PyDict d =>
      "{" +:+ PyStr.join ", " (map (λ kv, PyStr.repr (fst kv) +:+ ": " +:+ py_repr (snd kv)) d) +:+ "}"
  end.

Definition py_str (v : value) : string :=
  match v with PyStr s => s | _ => py_repr v end.

(** ** [json.dumps(v, ensure_ascii=False)] *)

Module Json.

Definition escape_char (c : ascii) : string :=
  let n := nat_of_ascii c in
  if Ascii.eqb c PyStr.backslash then String PyStr.backslash (String PyStr.backslash EmptyString)
  else if Ascii.eqb c PyStr.dquote then String PyStr.backslash (String PyStr.dquote EmptyString)
  else if Nat.eqb n 8 then String PyStr.backslash "b"
  else if Nat.eqb n 12 then String PyStr.backslash "f"
  else if Nat.eqb n 10 then String PyStr.backslash "n"
  else if Nat.eqb n 13 then String PyStr.backslash "r"
  else if Nat.eqb n 9 then String PyStr.backslash "t"
  else if Nat.ltb n 32 then String PyStr.backslash ("u00" +:+ PyStr.hex2 c)
  else String c EmptyString.

Fixpoint escape (s : string) : string :=
  match s with
  | EmptyString => EmptyString
  | String c r => escape_char c +:+ escape r
  end.

Definition encode_basestring (s : string) : string :=
  String PyStr.dquote (escape s +:+ String PyStr.dquote EmptyString).

Fixpoint dumps (v : value) : string :=
  match v with
  | PyNone => "null"
  | PyBool b => if b then "true" else "false"
  | PyInt n => pretty n
  | PyFloat x => float_json x
  | PyStr s => encode_basestring s
  | PyList l => "[" +:+ PyStr.join ", " (map dumps l) +:+ "]"
  | PyDict d =>
      "{" +:+ PyStr.join ", " (map (λ kv, encode_basestring (fst kv) +:+ ": " +:+ dumps (snd kv)) d) +:+ "}"
  end.

End Json.

(** ** Exceptions and the methods the extractor calls *)

Inductive pyexn :=
| AttributeError (ty attr : string)
| TypeError (msg : string).

(** [str(e)] *)
Definition exn_str (e : pyexn) : string :=
  match e with
  | AttributeError ty attr => "'" +:+ ty +:+ "' object has no attribute '" +:+ attr +:+ "'"
  | TypeError msg => msg
  end.

Definition result (A : Type) : Type := pyexn + A.

(** [v.get(k, default)] *)
Definition call_get (v : value) (k : string) (default : value) : result value :=
  match v with
  | PyDict d => inr (dict_get d k default)
  | _ => inl (AttributeError (type_name v) "get")
  end.

(** [v.items()] *)
Definition call_items (v : value) : result (list (string * value)) :=
  match v with
  | PyDict d => inr d
  | _ => inl (AttributeError (type_name v) "items")
  end.

(** [v.strip()] *)
Definition call_strip (v : value) : result string :=
  match v with
  | PyStr s => inr (PyStr.strip s)
  | _ => inl (AttributeError (type_name v) "strip")
  end.

(** the elements a [for] loop over [v] visits *)
Definition iterate (v : value) : result (list value) :=
  match v with
  | PyList l => inr l
  | PyStr s => inr (PyStr <$> PyStr.chars s)
  | PyDict d => inr ((λ kv, PyStr (fst kv)) <$> d)
  | _ => inl (TypeError ("'" +:+ type_name v +:+ "' object is not iterable"))
  end.

(** [len(v)] *)
Definition py_len (v : value) : result nat :=
  match v with
  | PyList l => inr (List.length l)
  | PyStr s => inr (String.length s)
  | PyDict d => inr (List.length d)
  | _ => inl (TypeError ("object of type '" +:+ type_name v +:+ "' has no len()"))
  end.

(** ** The body of the [try] block

    A computation of the [try] body appends to the shared [error_entries]
    list and either returns or raises; entries appended before a raise
    stay in the list. *)

Definition body (A : Type) : Type := list value → result A * list value.

Definition ret {A} (a : A) : body A := λ ee, (inr a, ee).
Definition raise {A} (e : pyexn) : body A := λ ee, (inl e, ee).
Definition bind {A B} (m : body A) (k : A → body B) : body B :=
  λ ee, match m ee with
        | (inl e, ee') => (inl e, ee')
        | (inr a, ee') => k a ee'
        end.
Definition lift {A} (r : result A) : body A :=
  match r with inl e => raise e | inr a => ret a end.
Definition append_entry (entry : value) : body unit := λ ee, (inr tt, ee ++ [entry]).

Notation "'let*' x := m 'in' k" := (bind m (λ x, k))
  (at level 10, x name, m at level 100, k at level 200, only parsing).

(** a [for] loop whose body updates a loop variable of type [St] *)
Fixpoint for_each {A St} (f : A → St → body St) (l : list A) (s : St) : body St :=
  match l with
  | [] => ret s
  | a :: r => let* s' := f a s in for_each f r s'
  end.

(** ** extract_user_messages *)

Definition missing_mapping_warning (i : nat) : string :=
  "Warning: Conversation " +:+ pretty i +:+ " has no mapping, skipping...".

Definition missing_mapping_entry (i : nat) (convo : value) : value :=
  PyDict [("type", PyStr "missing_mapping");
          ("conversation_index", PyInt (Z.of_nat i));
          ("conversation", convo);
          ("warning", PyStr (missing_mapping_warning i))].

Definition non_text_content_entry (i : nat) (node_id : string) (content_type part : value) : value :=
  PyDict [("type", PyStr "non_text_content");
          ("conversation_index", PyInt (Z.of_nat i));
          ("node_id", PyStr node_id);
          ("content_type", content_type);
          ("part", part);
          ("warning", PyStr ("Warning: Conversation " +:+ pretty i +:+ ", node " +:+ node_id
                             +:+ " - skipping non-text content: " +:+ py_str content_type))].

Definition non_string_part_entry (i : nat) (node_id : string) (part : value) : value :=
  PyDict [("type", PyStr "non_string_part");
          ("conversation_index", PyInt (Z.of_nat i));
          ("node_id", PyStr node_id);
          ("part", part);
          ("warning", PyStr ("Warning: Conversation " +:+ pretty i +:+ ", node " +:+ node_id
                             +:+ " - part is not a string or dict, skipping."))].

Definition exception_entry (i : nat) (convo : value) (e : pyexn) : value :=
  PyDict [("type", PyStr "exception");
          ("conversation_index", PyInt (Z.of_nat i));
          ("conversation", convo);
          ("error", PyStr (exn_str e));
          ("warning", PyStr ("Warning: Error processing conversation " +:+ pretty i
                             +:+ ", skipping... Error: " +:+ exn_str e))].

(** the ["type"] tag of a diagnostic entry *)
Definition entry_type (entry : value) : value :=
  match entry with PyDict d => dict_get d "type" PyNone | _ => PyNone end.

(** one round of [for part in parts] (lines 125-155) *)
Definition part_step (i : nat) (node_id : string) (part : value)
    (conversation_messages : list string) : body (list string) :=
  match part with
  | PyStr s =>
      if PyStr.truthy (PyStr.strip s)
      then ret (conversation_messages ++ [PyStr.strip s])
      else ret conversation_messages
  | PyDict d =>
      if eq_str (dict_get d "content_type" PyNone) "audio_transcription" then
        let* text := lift (call_strip (dict_get d "text" (PyStr EmptyString))) in
        if PyStr.truthy text
        then ret (conversation_messages ++ [text])
        else ret conversation_messages
      else
        let content_type := dict_get d "content_type" (PyStr "unknown") in
        let* _ := append_entry (non_text_content_entry i node_id content_type part) in
        ret conversation_messages
  | _ =>
      let* _ := append_entry (non_string_part_entry i node_id part) in
      ret conversation_messages
  end.

(** one round of [for node_id, node in mapping.items()] (lines 116-155) *)
Definition node_step (i : nat) (item : string * value)
    (conversation_messages : list string) : body (list string) :=
  let '(node_id, node) := item in
  let* message := lift (call_get node "message" PyNone) in
  if negb (truthy message) then ret conversation_messages else
  let* author := lift (call_get message "author" (PyDict [])) in
  let* role := lift (call_get author "role" PyNone) in
  if negb (eq_str role "user") then ret conversation_messages else
  let* content := lift (call_get message "content" (PyDict [])) in
  let* parts := lift (call_get content "parts" (PyList [])) in
  let* parts := lift (iterate parts) in
  for_each (part_step i node_id) parts conversation_messages.

(** the [try] body for conversation [i] (lines 102-156): [None] when the
    conversation has no mapping and is skipped, otherwise the messages
    of the conversation *)
Definition conversation_body (i : nat) (convo : value) : body (option (list string)) :=
  let* mapping := lift (call_get convo "mapping" (PyDict [])) in
  if negb (truthy mapping) then
    let* _ := append_entry (missing_mapping_entry i convo) in
    ret None
  else
    let* items := lift (call_items mapping) in
    let* conversation_messages := for_each (node_step i) items [] in
    ret (Some conversation_messages).

Record extraction := Extraction_ {
  all_user_messages : list string;
  skipped_conversations : nat;
  error_entries : list value
}.

(** one round of [for i, convo in enumerate(conversations_data)], with
    the [except Exception] handler (lines 100-168) *)
Definition conversation_step (i : nat) (convo : value) (st : extraction) : extraction :=
  match conversation_body i convo (error_entries st) with
  | (inr (Some conversation_messages), ee) =>
      {| all_user_messages := all_user_messages st ++ conversation_messages;
         skipped_conversations := skipped_conversations st;
         error_entries := ee |}
  | (inr None, ee) =>
      {| all_user_messages := all_user_messages st;
         skipped_conversations := S (skipped_conversations st);
         error_entries := ee |}
  | (inl e, ee) =>
      {| all_user_messages := all_user_messages st;
         skipped_conversations := S (skipped_conversations st);
         error_entries := ee ++ [exception_entry i convo e] |}
  end.

Fixpoint extract_loop (i : nat) (convos : list value) (st : extraction) : extraction :=
  match convos with
  | [] => st
  | convo :: rest => extract_loop (S i) rest (conversation_step i convo st)
  end.

Definition extraction_start : extraction :=
  {| all_user_messages := []; skipped_conversations := 0; error_entries := [] |}.

(** the extractor up to line 171: a raise here is one of
    [enumerate(conversations_data)], outside the [try] *)
Definition extract (conversations_data : value) : result extraction :=
  match iterate conversations_data with
  | inl e => inl e
  | inr convos => inr (extract_loop 0 convos extraction_start)
  end.

(** ** Files *)

(** the one-character string ["\n"] *)
Definition newline : string := String (ascii_of_nat 10) EmptyString.

Record world := World {
  files : gmap string string;     (* path to content *)
  unwritable : gset string        (* paths that cannot be opened for writing *)
}.

(** [open(path, "w")] followed by writing [line + "\n"] for each line *)
Definition write_lines (path : string) (lines : list string) (w : world) : option world :=
  if decide (path ∈ unwritable w) then None
  else Some {| files := <[path := foldr (λ line acc, line +:+ newline +:+ acc) EmptyString lines]> (files w); unwritable := unwritable w |}.

(** lines 173-180: the diagnostics file, written only when a path is
    given and there are entries; a failure is reported and ignored *)
Definition write_errors (errors_file_path : option string) (error_entries : list value)
    (w : world) : world :=
  match errors_file_path, error_entries with
  | Some path, _ :: _ =>
      if PyStr.truthy path then
        match write_lines path (Json.dumps <$> error_entries) w with
        | Some w' => w'
        | None => w
        end
      else w
  | _, _ => w
  end.

Definition extract_user_messages (conversations_data : value)
    (errors_file_path : option string) (w : world) : result (extraction * world) :=
  match extract conversations_data with
  | inl e => inl e
  | inr st => inr (st, write_errors errors_file_path (error_entries st) w)
  end.

(** ** Tokenizer *)

(** A [tiktoken] encoding: [encode] gives the token ids of a text, or
    [None] when it raises; [decode] gives the text of token ids. *)
Record Encoding := {
  encode : string → option (list nat);
  decode : list nat → string
}.

(** ** The set [seen] of remove_duplicates

    The program only adds to the set and tests membership; the layout of
    the set, which depends on the string hash seed of the run, is left
    open. *)
Class PySet (S : Type) := {
  set_new : S;
  set_add : string → S → S;
  set_in : string → S → bool
}.

Class PySetLaws (S : Type) `{PySet S} := {
  set_in_new x : set_in x set_new = false;
  set_in_add x y s : set_in x (set_add y s) = bool_decide (x = y) || set_in x s
}.

#[export] Instance gset_PySet : PySet (gset string) := {|
  set_new := ∅;
  set_add x s := {[x]} ∪ s;
  set_in x s := bool_decide (x ∈ s)
|}.

(** a second layout: the members in reverse order of addition *)
#[export] Instance list_PySet : PySet (list string) := {|
  set_new := [];
  set_add x s := x :: s;
  set_in x s := bool_decide (x ∈ s)
|}.

(** ** The formatter and [main] *)

Record args := Args {
  input_file : string;
  output_file : string;
  max_tokens : Z;
  no_remove_duplicates : bool
}.

(** what [open] and [json.load] give for the input file *)
Inductive loaded :=
| Loaded (conversations : value)
| FileNotFound
| InvalidJSON
| ReadError.

Section Pipeline.

(** the outcome of [tiktoken.get_encoding("cl100k_base")], [None] when
    it raises *)
Variable get_encoding : option Encoding.

Context {Seen : Type} `{!PySet Seen}.

(** the estimate [len(text) // 4] of the [except] branches *)
Definition rough_estimate (text : string) : Z :=
  (Z.of_nat (String.length text) / 4)%Z.

Definition count_tokens (text : string) : Z :=
  match get_encoding with
  | Some encoding =>
      match encode encoding text with
      | Some tokens => Z.of_nat (length tokens)
      | None => rough_estimate text
      end
  | None => rough_estimate text
  end.

Definition truncate_to_tokens (text : string) (max_tokens : Z) : string :=
  if (count_tokens text <=? max_tokens)%Z then text
  else
    match get_encoding with
    | Some encoding =>
        match encode encoding text with
        | Some tokens => decode encoding (list_slice_to tokens max_tokens)
        | None => PyStr.slice_to text (max_tokens * 4)
        end
    | None => PyStr.slice_to text (max_tokens * 4)
    end.

(** what the truncation loop appends for [msg] *)
Definition token_limit (max_tokens : Z) (msg : string) : string :=
  if (max_tokens <? count_tokens msg)%Z
  then truncate_to_tokens msg max_tokens
  else msg.

(** lines 260-265, with the loop variables [seen], [unique_messages]
    and [duplicates_removed] *)
Fixpoint remove_duplicates_loop (messages : list string) (seen : Seen)
    (unique_messages : list string) (duplicates_removed : nat) : list string * nat :=
  match messages with
  | [] => (unique_messages, duplicates_removed)
  | msg :: rest =>
      if negb (set_in msg seen)
      then remove_duplicates_loop rest (set_add msg seen) (unique_messages ++ [msg])
             duplicates_removed
      else remove_duplicates_loop rest seen unique_messages (S duplicates_removed)
  end.

Definition remove_duplicates (messages : list string) : list string :=
  fst (remove_duplicates_loop messages set_new [] 0).

Definition filter_empty_entries (messages : list string) : list string :=
  filter (λ msg, PyStr.truthy (PyStr.strip msg)) messages.

(** what filter_empty_entries reports as removed *)
Definition removed_count (messages : list string) : nat :=
  length messages - length (filter_empty_entries messages).

(** lines 192-198, with the loop variables [token_limited_messages] and
    [truncated_count] *)
Fixpoint truncation_loop (max_tokens : Z) (messages : list string)
    (token_limited_messages : list string) (truncated_count : nat) : list string * nat :=
  match messages with
  | [] => (token_limited_messages, truncated_count)
  | msg :: rest =>
      if (max_tokens <? count_tokens msg)%Z
      then truncation_loop max_tokens rest
             (token_limited_messages ++ [truncate_to_tokens msg max_tokens])
             (S truncated_count)
      else truncation_loop max_tokens rest (token_limited_messages ++ [msg]) truncated_count
  end.

(** the value of [token_limited_messages] after line 208 *)
Definition token_limited_messages (messages : list string) (max_tokens : Z)
    (remove_duplicates_flag : bool) : list string :=
  let token_limited_messages := fst (truncation_loop max_tokens messages [] 0) in
  let token_limited_messages :=
    if remove_duplicates_flag then remove_duplicates token_limited_messages
    else token_limited_messages in
  filter_empty_entries token_limited_messages.

Definition assistant_content (msg : string) : string :=
  " " +:+ PyStr.rstrip msg +:+ newline.

(** the dict [json_line] of lines 215-220 *)
Definition json_line (msg : string) : value :=
  PyDict [("messages", PyList [
    PyDict [("role", PyStr "user"); ("content", PyStr "Write a blog post in my voice.")];
    PyDict [("role", PyStr "assistant"); ("content", PyStr (assistant_content msg))]])].

(** lines 211-222, with the loop variables [jsonl_lines] and
    [processed_count] *)
Fixpoint format_loop (messages : list string) (jsonl_lines : list string)
    (processed_count : nat) : list string * nat :=
  match messages with
  | [] => (jsonl_lines, processed_count)
  | msg :: rest =>
      format_loop rest (jsonl_lines ++ [Json.dumps (json_line msg)])
        (S processed_count)
  end.

Definition format_to_jsonl (messages : list string) (max_tokens : Z)
    (remove_duplicates_flag : bool) : list string :=
  fst (format_loop (token_limited_messages messages max_tokens remove_duplicates_flag) [] 0).

(** the records behind the lines of the output *)
Definition chat_records (messages : list string) (max_tokens : Z)
    (remove_duplicates_flag : bool) : list value :=
  json_line <$> token_limited_messages messages max_tokens remove_duplicates_flag.

(** [sys.exit(1)] is [None] *)
Definition load_conversations (input : loaded) : option value :=
  match input with
  | Loaded conversations => Some conversations
  | FileNotFound | InvalidJSON | ReadError => None
  end.

Definition write_jsonl_output (output_file_path : string) (jsonl_lines : list string)
    (w : world) : option world :=
  write_lines output_file_path jsonl_lines w.

(** [main] after argument parsing (lines 358-374): the exit status and
    the files it leaves; an exception that reaches the top level ends
    the run with status 1 *)
Definition main (a : args) (input : loaded) (w : world) : Z * world :=
  match load_conversations input with
  | None => (1%Z, w)
  | Some conversations =>
      match py_len conversations with
      | inl _ => (1%Z, w)
      | inr _ =>
          match extract_user_messages conversations (Some "errors.jsonl") w with
          | inl _ => (1%Z, w)
          | inr (st, w1) =>
              let remove_duplicates_flag := negb (no_remove_duplicates a) in
              let jsonl_lines :=
                format_to_jsonl (all_user_messages st) (max_tokens a) remove_duplicates_flag in
              match write_jsonl_output (output_file a) jsonl_lines w1 with
              | Some w2 => (0%Z, w2)
              | None => (1%Z, w1)
              end
          end
      end
  end.

End Pipeline.

(** ** A character-level encoding, for running the pipeline *)

Fixpoint char_codes (s : string) : list nat :=
  match s with
  | EmptyString => []
  | String c r => nat_of_ascii c :: char_codes r
  end.

Fixpoint of_char_codes (l : list nat) : string :=
  match l with
  | [] => EmptyString
  | n :: r => String (ascii_of_nat n) (of_char_codes r)
  end.

(** one token per character *)
Definition char_encoding : Encoding :=
  {| encode := λ s, Some (char_codes s); decode := of_char_codes |}.

(** an encoding whose [encode] raises on a text that holds the character
    [<], as [tiktoken] does on the text of a special token *)
Definition guarded_encoding : Encoding :=
  {| encode := λ s, if PyStr.contains "<" s then None else Some (char_codes s);
     decode := of_char_codes |}.

(** ** Vocabulary of the properties *)

(** empty or all-whitespace *)
Fixpoint blank (s : string) : bool :=
  match s with
  | EmptyString => true
  | String c r => PyStr.isspace c && blank r
  end.

(** keep the first occurrence of each value not already in [prev] *)
Fixpoint keep_first (prev : list string) (l : list string) : list string :=
  match l with
  | [] => []
  | x :: r =>
      if decide (x ∈ prev) then keep_first prev r else x :: keep_first (x :: prev) r
  end.

(** [record["messages"][1]["content"]] *)
Definition record_content (record : value) : value :=
  match record with
  | PyDict d =>
      match dict_get d "messages" PyNone with
      | PyList [_; PyDict turn] => dict_get turn "content" PyNone
      | _ => PyNone
      end
  | _ => PyNone
  end.

(** the assistant content with its leading space and trailing newline
    taken off again: [content[1:-1]] *)
Definition strip_convention (content : string) : string :=
  match content with
  | EmptyString => EmptyString
  | String _ r => PyStr.slice_to r (-1)
  end.

(** the messages conversation [convo] contributes, and whether it is
    counted as skipped *)
Definition convo_messages (convo : value) : list string :=
  match (conversation_body 0 convo []).1 with
  | inr (Some conversation_messages) => conversation_messages
  | _ => []
  end.

Definition convo_skipped (convo : value) : bool :=
  match (conversation_body 0 convo []).1 with
  | inr (Some _) => false
  | _ => true
  end.

(** the assistant contents of the output, one per record *)
Definition emitted_contents (get_encoding : option Encoding) {Seen : Type} `{!PySet Seen}
    (messages : list string) (max_tokens : Z) (remove_duplicates_flag : bool) : list value :=
  record_content <$> chat_records get_encoding messages max_tokens remove_duplicates_flag.

(** the count of the assistant content, taken back out of its
    convention, is at most [max_tokens] *)
Definition within_limit (get_encoding : option Encoding) (max_tokens : Z)
    (content : value) : Prop :=
  match content with
  | PyStr c => (count_tokens get_encoding (strip_convention c) ≤ max_tokens)%Z
  | _ => False
  end.

(** An encoding on which the token bound can be relied on: [encode]
    never raises, the text of the first [n] tokens of a text has at most
    [n] tokens, and taking trailing whitespace off a text adds no token. *)
Definition well_behaved (encoding : Encoding) : Prop :=
  (∀ s, is_Some (encode encoding s))
  ∧ (∀ s tokens n, encode encoding s = Some tokens →
       (count_tokens (Some encoding) (decode encoding (take n tokens)) ≤ Z.of_nat n)%Z)
  ∧ (∀ s, (count_tokens (Some encoding) (PyStr.rstrip s)
           ≤ count_tokens (Some encoding) s)%Z).

(** the backend fails on [text]: [get_encoding] or [encode] raises *)
Definition backend_fails (get_encoding : option Encoding) (text : string) : Prop :=
  match get_encoding with
  | None => True
  | Some encoding => encode encoding text = None
  end.

(** [ceil(len(text) / 4)] *)
Definition ceil_quarter (text : string) : Z :=
  ((Z.of_nat (String.length text) + 3) / 4)%Z.

(** the fallbacks as a ceiling and a plain cut at [limit * 4] characters *)
Definition ceiling_fallback (text : string) (limit : Z) : Prop :=
  count_tokens None text = ceil_quarter text
  ∧ truncate_to_tokens None text limit = PyStr.take (Z.to_nat (limit * 4)) text.



(** the messages one node of a mapping contributes *)
Definition node_messages (item : string * value) : list string :=
  match (node_step 0 item [] []).1 with
  | inr conversation_messages => conversation_messages
  | inl _ => []
  end.

(** ** Vocabulary of the further properties *)

(** a message as the extractor leaves it: without leading or trailing
    whitespace, and not empty *)
Definition trimmed (msg : string) : Prop :=
  PyStr.strip msg = msg ∧ blank msg = false.

(** the ["conversation_index"] field of a diagnostic entry *)
Definition entry_index (entry : value) : value :=
  match entry with PyDict d => dict_get d "conversation_index" PyNone | _ => PyNone end.

(** the entries logged once per skipped conversation *)
Definition conversation_level (entry : value) : bool :=
  eq_str (entry_type entry) "missing_mapping" || eq_str (entry_type entry) "exception".

(** an entry logged for a part of conversation [i] *)
Definition part_level (i : nat) (entry : value) : Prop :=
  conversation_level entry = false ∧ entry_index entry = PyInt (Z.of_nat i).

(** a computation of the [try] body only appends entries, all in [P] *)
Definition logs {A} (P : value → Prop) (m : body A) : Prop :=
  ∀ ee r ee', m ee = (r, ee') → ∃ added, ee' = ee ++ added ∧ Forall P added.

(** [node] passes every test of lines 117-124 and its parts are [parts] *)
Definition user_node (node parts : value) : Prop :=
  ∃ n m a c,
    node = PyDict n
    ∧ dict_lookup n "message" = Some (PyDict m)
    ∧ dict_lookup m "author" = Some (PyDict a)
    ∧ dict_lookup a "role" = Some (PyStr "user")
    ∧ dict_lookup m "content" = Some (PyDict c)
    ∧ dict_lookup c "parts" = Some parts.

(** the text [write_lines] puts in a file *)
Definition file_text (lines : list string) : string :=
  foldr (λ line acc, line +:+ newline +:+ acc) EmptyString lines.

Fixpoint count_char (c : ascii) (s : string) : nat :=
  match s with
  | EmptyString => 0
  | String d r => (if Ascii.eqb c d then 1 else 0) + count_char c r
  end.

(** [s] is [prefix] followed by something *)
Definition str_prefix (prefix s : string) : Prop := ∃ rest, s = prefix +:+ rest.

(** the value of a lower-case hexadecimal digit *)
Definition hex_value (c : ascii) : option nat :=
  let n := nat_of_ascii c in
  if Nat.leb 48 n && Nat.leb n 57 then Some (n - 48)
  else if Nat.leb 97 n && Nat.leb n 102 then Some (n - 87)
  else None.

(** the reading of what [Json.escape] writes: a backslash starts one of
    the two-character escapes or a [\u00XX] escape *)
Fixpoint unescape (s : string) : option string :=
  match s with
  | EmptyString => Some EmptyString
  | String c r =>
      if Ascii.eqb c PyStr.backslash then
        match r with
        | EmptyString => None
        | String d r1 =>
            if Ascii.eqb d PyStr.backslash then String PyStr.backslash <$> unescape r1
            else if Ascii.eqb d PyStr.dquote then String PyStr.dquote <$> unescape r1
            else if Ascii.eqb d "b" then String (ascii_of_nat 8) <$> unescape r1
            else if Ascii.eqb d "f" then String (ascii_of_nat 12) <$> unescape r1
            else if Ascii.eqb d "n" then String (ascii_of_nat 10) <$> unescape r1
            else if Ascii.eqb d "r" then String (ascii_of_nat 13) <$> unescape r1
            else if Ascii.eqb d "t" then String (ascii_of_nat 9) <$> unescape r1
            else if Ascii.eqb d "u" then
              match r1 with
              | String "0" (String "0" (String h (String l r2))) =>
                  match hex_value h, hex_value l with
                  | Some x, Some y => String (ascii_of_nat (16 * x + y)) <$> unescape r2
                  | _, _ => None
                  end
              | _ => None
              end
            else None
        end
      else String c <$> unescape r
  end.

(** the text of a line of the output before and after the escaped
    assistant content *)
Definition line_head : string :=
  "{" +:+ Json.encode_basestring "messages" +:+ ": [{"
  +:+ Json.encode_basestring "role" +:+ ": " +:+ Json.encode_basestring "user" +:+ ", "
  +:+ Json.encode_basestring "content" +:+ ": "
  +:+ Json.encode_basestring "Write a blog post in my voice." +:+ "}, {"
  +:+ Json.encode_basestring "role" +:+ ": " +:+ Json.encode_basestring "assistant" +:+ ", "
  +:+ Json.encode_basestring "content" +:+ ": " +:+ String PyStr.dquote EmptyString.

Definition line_tail : string := String PyStr.dquote "}]}".

(** ** Readers of the records

    The functions of the two other scripts that read a parsed record. *)

(** filter_blog_style.py, lines 31-35: the loop of
    extract_assistant_content *)
Fixpoint first_assistant_content (messages : list value) : result string :=
  match messages with
  | [] => inr EmptyString
  | message :: rest =>
      match call_get message "role" PyNone with
      | inl e => inl e
      | inr role =>
          if eq_str role "assistant"
          then match call_get message "content" (PyStr EmptyString) with
               | inl e => inl e
               | inr content => call_strip content
               end
          else first_assistant_content rest
      end
  end.

(** filter_blog_style.py, lines 29-35 *)
Definition extract_assistant_content (obj : value) : result string :=
  match call_get obj "messages" (PyList []) with
  | inl e => inl e
  | inr messages =>
      match iterate messages with
      | inl e => inl e
      | inr messages => first_assistant_content messages
      end
  end.

(** [content += v] for a string [content] *)
Definition str_iadd (content : string) (v : value) : result string :=
  match v with
  | PyStr s => inr (content +:+ s)
  | _ => inl (TypeError ("can only concatenate str (not "
                         +:+ String PyStr.dquote (type_name v)
                         +:+ String PyStr.dquote ") to str"))
  end.

(** estimate_finetune_cost.py, lines 22-23: the loop of
    extract_content_from_messages *)
Fixpoint concat_contents (messages : list value) (content : string) : result string :=
  match messages with
  | [] => inr content
  | message :: rest =>
      match call_get message "content" (PyStr EmptyString) with
      | inl e => inl e
      | inr v =>
          match str_iadd content v with
          | inl e => inl e
          | inr content => concat_contents rest content
          end
      end
  end.

(** estimate_finetune_cost.py, lines 18-24 *)
Definition extract_content_from_messages (data : value) : result string :=
  match call_get data "messages" (PyList []) with
  | inl e => inl e
  | inr messages =>
      match iterate messages with
      | inl e => inl e
      | inr messages => concat_contents messages EmptyString
      end
  end.

(** [str.lower] on one code point below 256 *)
Definition lower_char (c : ascii) : ascii :=
  let n := nat_of_ascii c in
  if (Nat.leb 65 n && Nat.leb n 90)
     || (Nat.leb 192 n && Nat.leb n 222 && negb (Nat.eqb n 215))
  then ascii_of_nat (n + 32) else c.

Fixpoint lower (s : string) : string :=
  match s with
  | EmptyString => EmptyString
  | String c r => String (lower_char c) (lower r)
  end.

(** [s.startswith(prefix)] *)
Fixpoint startswith (prefix s : string) : bool :=
  match prefix, s with
  | EmptyString, _ => true
  | String p prefix', String c s' => Ascii.eqb p c && startswith prefix' s'
  | String _ _, EmptyString => false
  end.

(** [sub in s] *)
Fixpoint str_in (sub s : string) : bool :=
  startswith sub s
  || match s with
     | EmptyString => false
     | String _ r => str_in sub r
     end.

(** [len(re.findall(r'[.!?]', text))] *)
Fixpoint count_marks (s : string) : nat :=
  match s with
  | EmptyString => 0
  | String c r =>
      (if Ascii.eqb c "." || Ascii.eqb c "!" || Ascii.eqb c "?" then 1 else 0)
      + count_marks r
  end.

(** filter_blog_style.py, lines 17-27 *)
Definition is_bloggy (text : string) : bool :=
  let text := PyStr.strip text in
  if Nat.ltb (String.length text) 40 then false
  else if Nat.ltb (count_marks text) 3 then false
  else if existsb (λ prefix, startswith prefix (lower text))
            ["how "; "what "; "when "; "where "; "why "; "can "; "could "; "should "]
       then false
  else if existsb (λ keyword, str_in keyword (lower text))
            ["$ "; "openai "; "jsonl"; "flag"; "--help"; "curl"; "python "]
       then false
  else true.

(** ** Vocabulary of the yield of a part and of the order of the nodes *)








(** [d[k] = v] on a dict: the value of a key that is there is replaced
    in place, a new key goes to the end *)
Fixpoint dict_setitem (d : list (string * value)) (k : string) (v : value)
    : list (string * value) :=
  match d with
  | [] => [(k, v)]
  | (k', v') :: r =>
      if String.eqb k k' then (k', v) :: r else (k', v') :: dict_setitem r k v
  end.

(** the dict of the members of a JSON object, inserted in the order of
    the document *)
Definition dict_of_pairs (pairs : list (string * value)) : list (string * value) :=
  foldl (λ d kv, dict_setitem d kv.1 kv.2) [] pairs.

(** ** The Message Normalizer as the specification words it *)

Module Spec.

Section Normalizer.

Variable count : string → Z.
Variable truncate : string → Z → string.

(** every fragment whose count exceeds [L] is replaced by its truncation *)
Definition truncation_pass (L : Z) (fragments : list string) : list string :=
  (λ fragment, if (count fragment >? L)%Z then truncate fragment L else fragment)
    <$> fragments.

(** only the first occurrence of each distinct value is retained *)
Fixpoint deduplication_pass (fragments : list string) : list string :=
  match fragments with
  | [] => []
  | fragment :: rest => fragment :: filter (λ f, f ≠ fragment) (deduplication_pass rest)
  end.

(** empty and all-whitespace fragments are dropped *)
Definition empty_filter_pass (fragments : list string) : list string :=
  filter (λ fragment, blank fragment = false) fragments.

Definition normalizer (L : Z) (dedup : bool) (fragments : list string) : list string :=
  let fragments := truncation_pass L fragments in
  let fragments := if dedup then deduplication_pass fragments else fragments in
  empty_filter_pass fragments.

End Normalizer.

End Spec.

(** * Properties *)

(** ** Strings *)

Lemma rstrip_empty s : PyStr.rstrip s = EmptyString ↔ blank s = true.
Proof.
  induction s as [|c r IH]; simpl; [done|].
  destruct (PyStr.rstrip r) eqn:Hr.
  - destruct (PyStr.isspace c); simpl.
    + rewrite <- IH. done.
    + split; done.
  - split; [done|]. intros [_ Hb]%andb_true_iff. apply IH in Hb. done.
Qed.

Lemma blank_lstrip s : blank (PyStr.lstrip s) = blank s.
Proof.
  induction s as [|c r IH]; simpl; [done|].
  destruct (PyStr.isspace c) eqn:Hc; simpl; [done|]. by rewrite Hc.
Qed.

Lemma blank_rstrip s : blank (PyStr.rstrip s) = blank s.
Proof.
  induction s as [|c r IH]; simpl; [done|].
  destruct (PyStr.rstrip r) eqn:Hr.
  - assert (blank r = true) as -> by by apply rstrip_empty.
    destruct (PyStr.isspace c) eqn:Hc; simpl; by rewrite ?Hc.
  - simpl in *. by rewrite IH.
Qed.

Lemma truthy_rstrip s : PyStr.truthy (PyStr.rstrip s) = negb (blank s).
Proof.
  destruct (blank s) eqn:Hb.
  - apply rstrip_empty in Hb. by rewrite Hb.
  - destruct (PyStr.rstrip s) eqn:Hr; [|done].
    apply rstrip_empty in Hr. congruence.
Qed.

(** [msg.strip()] is falsy exactly for an empty or all-whitespace [msg] *)
Lemma truthy_strip s : PyStr.truthy (PyStr.strip s) = negb (blank s).
Proof. unfold PyStr.strip. by rewrite truthy_rstrip, blank_lstrip. Qed.

Lemma blank_app a b : blank (a +:+ b) = blank a && blank b.
Proof.
  induction a as [|c r IH]; simpl; [done|]. by rewrite IH, andb_assoc.
Qed.

Lemma length_app_str a b :
  String.length (a +:+ b) = String.length a + String.length b.
Proof. induction a as [|c r IH]; simpl; [done|]. by rewrite IH. Qed.

Lemma length_rstrip s : String.length (PyStr.rstrip s) ≤ String.length s.
Proof.
  induction s as [|c r IH]; simpl; [done|].
  destruct (PyStr.rstrip r) eqn:Hr.
  - destruct (PyStr.isspace c); simpl; lia.
  - simpl in *. lia.
Qed.

Lemma length_take_str n s : String.length (PyStr.take n s) = n `min` String.length s.
Proof.
  revert s. induction n as [|n IH]; intros [|c r]; simpl; try done.
  by rewrite IH.
Qed.

Lemma take_app_str a b : PyStr.take (String.length a) (a +:+ b) = a.
Proof. induction a as [|c r IH]; simpl; [by destruct b|]. by rewrite IH. Qed.

Lemma app_inv_tail_str a b t : a +:+ t = b +:+ t → a = b.
Proof.
  revert b. induction a as [|c r IH]; intros [|d b'] H; simpl in *.
  - done.
  - apply (f_equal String.length) in H. simpl in H. rewrite ?length_app_str in H. simpl in H. lia.
  - apply (f_equal String.length) in H. simpl in H. rewrite ?length_app_str in H. simpl in H. lia.
  - injection H as -> H. f_equal. by apply IH.
Qed.

(** [s[:n]] keeps at most [n] characters when [n] is not negative *)
Lemma length_slice_to s n :
  (0 ≤ n)%Z → (Z.of_nat (String.length (PyStr.slice_to s n)) ≤ n)%Z.
Proof.
  intros Hn. unfold PyStr.slice_to, PyStr.slice_stop.
  rewrite length_take_str. destruct (n <? 0)%Z eqn:Hlt; lia.
Qed.

Lemma slice_to_nonneg s n :
  (0 ≤ n)%Z → PyStr.slice_to s n = PyStr.take (Z.to_nat n) s.
Proof.
  intros Hn. unfold PyStr.slice_to, PyStr.slice_stop.
  destruct (n <? 0)%Z eqn:Hlt; [lia|done].
Qed.

(** ** Loops of the [try] body *)

Lemma for_each_app {A St} (f : A → St → body St) (l1 l2 : list A) (s : St) (ee : list value) :
  for_each f (l1 ++ l2) s ee =
  match for_each f l1 s ee with
  | (inl e, ee') => (inl e, ee')
  | (inr s', ee') => for_each f l2 s' ee'
  end.
Proof.
  revert s ee. induction l1 as [|a l1 IH]; intros s ee; simpl; [done|].
  unfold bind. destruct (f a s ee) as [[e|s'] ee']; [done|]. apply IH.
Qed.

(** the outcome of a loop does not depend on the entries logged so far,
    when that holds for its body *)
Lemma for_each_outcome {A St} (f g : A → St → body St) (l : list A) :
  (∀ a s ee ee', (f a s ee).1 = (g a s ee').1) →
  ∀ s ee ee', (for_each f l s ee).1 = (for_each g l s ee').1.
Proof.
  intros Hfg. induction l as [|a l IH]; intros s ee ee'; simpl; [done|].
  unfold bind. specialize (Hfg a s ee ee').
  destruct (f a s ee) as [[e|s1] ee1], (g a s ee') as [[e'|s2] ee2];
    simpl in Hfg; simplify_eq; [done|]. apply IH.
Qed.

Lemma part_step_outcome i j node_id part cm ee ee' :
  (part_step i node_id part cm ee).1 = (part_step j node_id part cm ee').1.
Proof.
  destruct part as [| | | |s|l|d]; simpl; try done.
  - by destruct (PyStr.truthy (PyStr.strip s)).
  - destruct (eq_str _ _); [|done].
    unfold bind. destruct (call_strip _) as [e|text]; simpl; [done|].
    by destruct (PyStr.truthy text).
Qed.

Lemma node_step_outcome i j item cm ee ee' :
  (node_step i item cm ee).1 = (node_step j item cm ee').1.
Proof.
  destruct item as [node_id node]. unfold node_step, bind.
  destruct (call_get node "message" PyNone) as [e|message]; simpl; [done|].
  destruct (truthy message); simpl; [|done].
  destruct (call_get message "author" _) as [e|author]; simpl; [done|].
  destruct (call_get author "role" _) as [e|role]; simpl; [done|].
  destruct (eq_str role "user"); simpl; [|done].
  destruct (call_get message "content" _) as [e|content]; simpl; [done|].
  destruct (call_get content "parts" _) as [e|parts]; simpl; [done|].
  destruct (iterate parts) as [e|parts']; simpl; [done|].
  apply for_each_outcome. intros. apply part_step_outcome.
Qed.

(** whether conversation [convo] is extracted, skipped or raises, and the
    messages it yields, depend on neither its index nor the entries
    logged before it *)
Lemma conversation_body_outcome i j convo ee ee' :
  (conversation_body i convo ee).1 = (conversation_body j convo ee').1.
Proof.
  unfold conversation_body, bind.
  destruct (call_get convo "mapping" _) as [e|mapping]; simpl; [done|].
  destruct (truthy mapping); simpl; [|done].
  destruct (call_items mapping) as [e|items]; simpl; [done|].
  pose proof (for_each_outcome (node_step i) (node_step j) items
    (λ a s e1 e2, node_step_outcome i j a s e1 e2) [] ee ee') as H.
  destruct (for_each (node_step i) items [] ee) as [[e|cm] ee1],
    (for_each (node_step j) items [] ee') as [[e'|cm'] ee2]; simpl in *; by simplify_eq.
Qed.

(** ** Sets *)

Lemma list_in_add (x y : string) (s : list string) :
  bool_decide (x ∈ y :: s) = bool_decide (x = y) || bool_decide (x ∈ s).
Proof.
  destruct (decide (x = y)) as [->|Hne].
  - rewrite (bool_decide_eq_true_2 (y = y) eq_refl).
    rewrite (bool_decide_eq_true_2 (y ∈ y :: s)) by left. done.
  - rewrite (bool_decide_eq_false_2 (x = y) Hne). simpl.
    apply bool_decide_ext. rewrite elem_of_cons. tauto.
Qed.

#[export] Instance gset_PySetLaws : PySetLaws (gset string).
Proof.
  split.
  - intros x. apply bool_decide_eq_false_2, not_elem_of_empty.
  - intros x y s. simpl.
    destruct (decide (x = y)) as [->|Hne].
    + rewrite (bool_decide_eq_true_2 (y = y) eq_refl).
      rewrite (bool_decide_eq_true_2 (y ∈ {[y]} ∪ s)); [done|].
      apply elem_of_union. left. by apply elem_of_singleton.
    + rewrite (bool_decide_eq_false_2 (x = y) Hne). simpl.
      apply bool_decide_ext. rewrite elem_of_union, elem_of_singleton. tauto.
Qed.

#[export] Instance list_PySetLaws : PySetLaws (list string).
Proof.
  split.
  - intros x. apply bool_decide_eq_false_2, not_elem_of_nil.
  - intros x y s. apply list_in_add.
Qed.

(** ** The passes of the formatter as list functions *)

Lemma keep_first_sublist prev l : keep_first prev l `sublist_of` l.
Proof.
  revert prev. induction l as [|x r IH]; intros prev; simpl; [done|].
  case_decide; [apply sublist_cons | apply sublist_skip]; apply IH.
Qed.

Lemma elem_of_keep_first prev l x : x ∈ keep_first prev l ↔ x ∈ l ∧ x ∉ prev.
Proof.
  revert prev. induction l as [|y r IH]; intros prev; simpl.
  - rewrite elem_of_nil. tauto.
  - case_decide as Hy.
    + rewrite IH, elem_of_cons. split; [tauto|]. intros [[->|?] ?]; tauto.
    + rewrite !elem_of_cons, IH, elem_of_cons.
      destruct (decide (x = y)) as [->|]; tauto.
Qed.

Lemma NoDup_keep_first prev l : NoDup (keep_first prev l).
Proof.
  revert prev. induction l as [|x r IH]; intros prev; simpl; [constructor|].
  case_decide; [apply IH|]. constructor; [|apply IH].
  rewrite elem_of_keep_first, elem_of_cons. tauto.
Qed.

Section PipelineFacts.

Variable get_encoding : option Encoding.
Context {Seen : Type} `{!PySet Seen} `{!PySetLaws Seen}.

Lemma truncation_loop_fst max_tokens messages acc n :
  (truncation_loop get_encoding max_tokens messages acc n).1
  = acc ++ (token_limit get_encoding max_tokens <$> messages).
Proof.
  revert acc n. induction messages as [|msg rest IH]; intros acc n; simpl.
  - by rewrite app_nil_r.
  - destruct (max_tokens <? count_tokens get_encoding msg)%Z eqn:Hover;
      rewrite IH, <- app_assoc; simpl; do 2 f_equal;
      unfold token_limit; by rewrite Hover.
Qed.

Lemma remove_duplicates_loop_fst messages (seen : Seen) prev acc n :
  (∀ x, set_in x seen = bool_decide (x ∈ prev)) →
  (remove_duplicates_loop messages seen acc n).1 = acc ++ keep_first prev messages.
Proof.
  revert seen prev acc n.
  induction messages as [|msg rest IH]; intros seen prev acc n Hseen; simpl.
  - by rewrite app_nil_r.
  - rewrite Hseen. case_decide as Hin.
    + rewrite bool_decide_eq_true_2 by done. simpl. by apply IH.
    + rewrite bool_decide_eq_false_2 by done. simpl.
      rewrite (IH _ (msg :: prev)), <- app_assoc; [done|].
      intros x. rewrite set_in_add, Hseen. symmetry. apply list_in_add.
Qed.

Lemma remove_duplicates_keep_first messages :
  remove_duplicates messages = keep_first [] messages.
Proof.
  unfold remove_duplicates. rewrite (remove_duplicates_loop_fst _ _ []); [done|].
  intros x. rewrite set_in_new. symmetry. apply bool_decide_eq_false_2, not_elem_of_nil.
Qed.

Lemma format_loop_fst messages acc n :
  (format_loop messages acc n).1 = acc ++ ((λ msg, Json.dumps (json_line msg)) <$> messages).
Proof.
  revert acc n. induction messages as [|msg rest IH]; intros acc n; simpl.
  - by rewrite app_nil_r.
  - by rewrite IH, <- app_assoc.
Qed.

(** the counters the loops report *)
Lemma truncation_loop_snd max_tokens messages acc n :
  (truncation_loop get_encoding max_tokens messages acc n).2
  = n + length (filter (λ msg, max_tokens < count_tokens get_encoding msg)%Z messages).
Proof.
  revert acc n. induction messages as [|msg rest IH]; intros acc n; simpl; [lia|].
  rewrite filter_cons. destruct (Z.ltb_spec max_tokens (count_tokens get_encoding msg)).
  - rewrite decide_True by done. rewrite IH. simpl. lia.
  - rewrite decide_False by lia. by rewrite IH.
Qed.

Lemma format_loop_snd messages acc n : (format_loop messages acc n).2 = n + length messages.
Proof.
  revert acc n. induction messages as [|msg rest IH]; intros acc n; simpl; [lia|].
  rewrite IH. lia.
Qed.

Lemma remove_duplicates_loop_snd messages (seen : Seen) acc n :
  length (remove_duplicates_loop messages seen acc n).1
  + (remove_duplicates_loop messages seen acc n).2 = length acc + n + length messages.
Proof.
  revert seen acc n. induction messages as [|msg rest IH]; intros seen acc n; simpl; [lia|].
  destruct (set_in msg seen); simpl; rewrite IH; rewrite ?length_app; simpl; lia.
Qed.

Lemma format_to_jsonl_records messages max_tokens flag :
  format_to_jsonl get_encoding messages max_tokens flag
  = Json.dumps <$> chat_records get_encoding messages max_tokens flag.
Proof.
  unfold format_to_jsonl, chat_records. rewrite format_loop_fst. simpl.
  by rewrite <- list_fmap_compose.
Qed.

Lemma token_limited_messages_passes messages max_tokens flag :
  token_limited_messages get_encoding messages max_tokens flag
  = filter (λ msg, PyStr.truthy (PyStr.strip msg))
      ((if flag then keep_first [] else id) (token_limit get_encoding max_tokens <$> messages)).
Proof.
  unfold token_limited_messages, filter_empty_entries.
  rewrite truncation_loop_fst. simpl.
  destruct flag; [by rewrite remove_duplicates_keep_first|done].
Qed.

End PipelineFacts.

Lemma record_content_json_line msg :
  record_content (json_line msg) = PyStr (assistant_content msg).
Proof. reflexivity. Qed.

Lemma strip_convention_assistant_content msg :
  strip_convention (assistant_content msg) = PyStr.rstrip msg.
Proof.
  unfold assistant_content.
  change (" " +:+ PyStr.rstrip msg +:+ newline)
    with (String " " (PyStr.rstrip msg +:+ newline)).
  generalize (PyStr.rstrip msg). intros t.
  unfold strip_convention, PyStr.slice_to, PyStr.slice_stop.
  rewrite length_app_str.
  replace (Z.to_nat _) with (String.length t) by (simpl; lia).
  apply take_app_str.
Qed.

(** ** The extractor *)

Lemma conversation_step_messages i convo st :
  all_user_messages (conversation_step i convo st)
  = all_user_messages st ++ convo_messages convo.
Proof.
  unfold conversation_step, convo_messages.
  rewrite (conversation_body_outcome 0 i convo [] (error_entries st)).
  destruct (conversation_body i convo (error_entries st)) as [[e|[cm|]] ee];
    simpl; by rewrite ?app_nil_r.
Qed.

Lemma conversation_step_skipped i convo st :
  skipped_conversations (conversation_step i convo st)
  = skipped_conversations st + (if convo_skipped convo then 1 else 0).
Proof.
  unfold conversation_step, convo_skipped.
  rewrite (conversation_body_outcome 0 i convo [] (error_entries st)).
  destruct (conversation_body i convo (error_entries st)) as [[e|[cm|]] ee];
    simpl; lia.
Qed.

Lemma extract_loop_messages i convos st :
  all_user_messages (extract_loop i convos st)
  = all_user_messages st ++ concat (convo_messages <$> convos).
Proof.
  revert i st. induction convos as [|convo rest IH]; intros i st; simpl.
  - by rewrite app_nil_r.
  - by rewrite IH, conversation_step_messages, <- app_assoc.
Qed.

Lemma extract_loop_skipped i convos st :
  skipped_conversations (extract_loop i convos st)
  = skipped_conversations st + length (filter (λ c, convo_skipped c) convos).
Proof.
  revert i st. induction convos as [|convo rest IH]; intros i st; simpl; [lia|].
  rewrite IH, conversation_step_skipped, filter_cons.
  destruct (convo_skipped convo); simpl; lia.
Qed.

(** a conversation that yields no message and is counted as skipped
    leaves the messages of the run as they are without it *)
Lemma skipped_conversation_run convo before after :
  convo_messages convo = [] → convo_skipped convo = true →
  let run := extract_loop 0 (before ++ convo :: after) extraction_start in
  let without := extract_loop 0 (before ++ after) extraction_start in
  all_user_messages run = all_user_messages without
  ∧ skipped_conversations run = S (skipped_conversations without).
Proof.
  intros Hm Hs. simpl. rewrite !extract_loop_messages, !extract_loop_skipped.
  rewrite !fmap_app, !concat_app, !filter_app, !length_app, fmap_cons, filter_cons.
  simpl. rewrite Hm, Hs. simpl. split; [done|lia].
Qed.


(** C7. A conversation whose mapping is absent or empty yields no message,
    logs exactly one entry, of type ["missing_mapping"], and adds one to
    the count of skipped conversations; the loop goes on with the next
    conversation, and the messages of a run are those of the run without
    that conversation. *)
Theorem missing_mapping_is_skipped (i : nat) (items : list (string * value))
    (st : extraction) (before after : list value) :
  dict_lookup items "mapping" = None ∨ dict_lookup items "mapping" = Some (PyDict []) →
  let convo := PyDict items in
  let st' := {| all_user_messages := all_user_messages st;
                skipped_conversations := S (skipped_conversations st);
                error_entries := error_entries st ++ [missing_mapping_entry i convo] |} in
  conversation_step i convo st = st'
  ∧ entry_type (missing_mapping_entry i convo) = PyStr "missing_mapping"
  ∧ extract_loop i (convo :: after) st = extract_loop (S i) after st'
  ∧ (let run := extract_loop 0 (before ++ convo :: after) extraction_start in
     let without := extract_loop 0 (before ++ after) extraction_start in
     all_user_messages run = all_user_messages without
     ∧ skipped_conversations run = S (skipped_conversations without)).
Proof.
  intros Hmap convo st'.
  assert (∀ j ee, conversation_body j convo ee
                  = (inr None, ee ++ [missing_mapping_entry j convo])) as Hbody.
  { intros j ee. unfold conversation_body, bind, convo. simpl. unfold dict_get.
    destruct Hmap as [-> | ->]; reflexivity. }
  assert (conversation_step i convo st = st') as Hstep.
  { unfold conversation_step. by rewrite Hbody. }
  split_and!; [done | done | by simpl; rewrite Hstep |].
  apply skipped_conversation_run.
  - unfold convo_messages. by rewrite Hbody.
  - unfold convo_skipped. by rewrite Hbody.
Qed.

Lemma missing_mapping_is_skipped_witness :
  let convo := PyDict [("title", PyStr "empty"); ("mapping", PyDict [])] in
  conversation_step 3 convo extraction_start
  = {| all_user_messages := []; skipped_conversations := 1;
       error_entries := [missing_mapping_entry 3 convo] |}.
Proof.
  intros convo.
  apply (missing_mapping_is_skipped 3 [("title", PyStr "empty"); ("mapping", PyDict [])]
           extraction_start [] []).
  right. reflexivity.
Defined.

(** C8. When the [try] body of a conversation raises, the handler logs an
    entry of type ["exception"] whose ["error"] field is the text of the
    exception, adds one to the count of skipped conversations and keeps
    the messages collected so far; the loop goes on with the next
    conversation, the messages of a run are those of the run without that
    conversation, and the extractor returns for every list of
    conversations. *)
Theorem exception_is_absorbed (i : nat) (convo : value) (st : extraction)
    (e : pyexn) (ee : list value) (before after : list value) :
  conversation_body i convo (error_entries st) = (inl e, ee) →
  let st' := {| all_user_messages := all_user_messages st;
                skipped_conversations := S (skipped_conversations st);
                error_entries := ee ++ [exception_entry i convo e] |} in
  conversation_step i convo st = st'
  ∧ entry_type (exception_entry i convo e) = PyStr "exception"
  ∧ (∃ d, exception_entry i convo e = PyDict d
          ∧ dict_lookup d "error" = Some (PyStr (exn_str e)))
  ∧ extract_loop i (convo :: after) st = extract_loop (S i) after st'
  ∧ (let run := extract_loop 0 (before ++ convo :: after) extraction_start in
     let without := extract_loop 0 (before ++ after) extraction_start in
     all_user_messages run = all_user_messages without
     ∧ skipped_conversations run = S (skipped_conversations without))
  ∧ (∀ convos, extract (PyList convos) = inr (extract_loop 0 convos extraction_start)).
Proof.
  intros Hbody st'.
  assert (conversation_step i convo st = st') as Hstep.
  { unfold conversation_step. by rewrite Hbody. }
  assert ((conversation_body 0 convo []).1 = inl e) as Hout.
  { rewrite (conversation_body_outcome 0 i convo [] (error_entries st)). by rewrite Hbody. }
  split_and!; [done | done | by eexists | by simpl; rewrite Hstep | | done].
  apply skipped_conversation_run.
  - unfold convo_messages. by rewrite Hout.
  - unfold convo_skipped. by rewrite Hout.
Qed.

Lemma exception_is_absorbed_witness :
  conversation_step 2 (PyInt 4) extraction_start
  = {| all_user_messages := []; skipped_conversations := 1;
       error_entries := [exception_entry 2 (PyInt 4) (AttributeError "int" "get")] |}.
Proof.
  apply (exception_is_absorbed 2 (PyInt 4) extraction_start
           (AttributeError "int" "get") [] [] []).
  reflexivity.
Defined.

(** ** The formatter *)

Lemma filter_not_in_nil (l : list string) : filter (λ f, f ∉ []) l = l.
Proof.
  induction l as [|x r IH]; [done|].
  rewrite filter_cons_True by apply not_elem_of_nil. by rewrite IH.
Qed.

(** the loop with the set [seen] retains first occurrences, as the
    specification words it *)
Lemma keep_first_spec prev l :
  keep_first prev l = filter (λ f, f ∉ prev) (Spec.deduplication_pass l).
Proof.
  revert prev. induction l as [|x r IH]; intros prev; simpl; [done|].
  case_decide as Hx.
  - rewrite filter_cons_False by tauto.
    rewrite list_filter_filter, IH. apply list_filter_iff. intros f.
    split; [|tauto]. intros Hf. split; [done|]. intros ->. done.
  - rewrite filter_cons_True by done. f_equal.
    rewrite list_filter_filter, IH. apply list_filter_iff. intros f.
    rewrite not_elem_of_cons. tauto.
Qed.

Lemma deduplication_pass_sublist l : Spec.deduplication_pass l `sublist_of` l.
Proof.
  rewrite <- (filter_not_in_nil (Spec.deduplication_pass l)), <- keep_first_spec.
  apply keep_first_sublist.
Qed.

Section FormatterFacts.

Variable get_encoding : option Encoding.
Context {Seen : Type} `{!PySet Seen} `{!PySetLaws Seen}.

Lemma remove_duplicates_spec messages :
  remove_duplicates messages = Spec.deduplication_pass messages.
Proof.
  by rewrite remove_duplicates_keep_first, keep_first_spec, filter_not_in_nil.
Qed.

Lemma filter_empty_entries_spec messages :
  filter_empty_entries messages = Spec.empty_filter_pass messages.
Proof.
  apply list_filter_iff. intros msg. rewrite truthy_strip.
  destruct (blank msg); simpl; split; done.
Qed.

Lemma emitted_contents_eq messages max_tokens flag :
  emitted_contents get_encoding messages max_tokens flag
  = (λ msg, PyStr (assistant_content msg))
      <$> token_limited_messages get_encoding messages max_tokens flag.
Proof.
  unfold emitted_contents, chat_records. rewrite <- list_fmap_compose.
  apply list_fmap_ext. intros _ msg _. apply record_content_json_line.
Qed.

(** a message that reaches the formatting loop is what the truncation
    loop made of one of the messages passed in, and is not blank *)
Lemma elem_of_token_limited_messages msg messages max_tokens flag :
  msg ∈ token_limited_messages get_encoding messages max_tokens flag →
  blank msg = false ∧ ∃ msg0, msg0 ∈ messages ∧ msg = token_limit get_encoding max_tokens msg0.
Proof.
  rewrite token_limited_messages_passes by apply _.
  rewrite list_elem_of_filter, truthy_strip.
  intros [Hb Hin]. split; [by destruct (blank msg)|].
  assert (msg ∈ token_limit get_encoding max_tokens <$> messages) as Hin'.
  { destruct flag; [|done]. eapply elem_of_sublist; [done|apply keep_first_sublist]. }
  apply list_elem_of_fmap in Hin' as (msg0 & -> & ?). eauto.
Qed.

(** C5. The messages the formatter turns into records are the result of
    the truncation pass, then the deduplication pass when it is enabled,
    then the empty filter, in that order; the truncation pass maps the
    messages one for one, and the two other passes return a subsequence
    of what they are given. *)
Theorem normalizer_passes_in_order (messages : list string) (max_tokens : Z) (flag : bool) :
  token_limited_messages get_encoding messages max_tokens flag
  = Spec.normalizer (count_tokens get_encoding) (truncate_to_tokens get_encoding)
      max_tokens flag messages
  ∧ (truncation_loop get_encoding max_tokens messages [] 0).1
    = token_limit get_encoding max_tokens <$> messages
  ∧ (∀ l, remove_duplicates l `sublist_of` l)
  ∧ (∀ l, filter_empty_entries l `sublist_of` l).
Proof.
  split_and!.
  - unfold token_limited_messages, Spec.normalizer.
    rewrite filter_empty_entries_spec, truncation_loop_fst. simpl. f_equal.
    assert (token_limit get_encoding max_tokens <$> messages
            = Spec.truncation_pass (count_tokens get_encoding)
                (truncate_to_tokens get_encoding) max_tokens messages) as ->.
    { apply list_fmap_ext. intros _ msg _. unfold token_limit. by rewrite Z.gtb_ltb. }
    destruct flag; [apply remove_duplicates_spec|done].
  - by rewrite truncation_loop_fst.
  - intros l. rewrite remove_duplicates_keep_first. apply keep_first_sublist.
  - intros l. apply sublist_filter.
Qed.

(** C9. Every record of the output has exactly two turns: the user turn
    with the fixed instruction, then the assistant turn made of one space,
    the message without its trailing whitespace and one newline; the
    assistant content is never empty or all-whitespace; the lines of the
    output are the serialised records. *)
Theorem chat_record_shape (messages : list string) (max_tokens : Z) (flag : bool) :
  Forall (λ record, ∃ msg,
            msg ∈ token_limited_messages get_encoding messages max_tokens flag
            ∧ record = PyDict [("messages", PyList [
                PyDict [("role", PyStr "user");
                        ("content", PyStr "Write a blog post in my voice.")];
                PyDict [("role", PyStr "assistant");
                        ("content", PyStr (" " +:+ PyStr.rstrip msg +:+ newline))]])]
            ∧ blank (" " +:+ PyStr.rstrip msg +:+ newline) = false)
         (chat_records get_encoding messages max_tokens flag)
  ∧ format_to_jsonl get_encoding messages max_tokens flag
    = Json.dumps <$> chat_records get_encoding messages max_tokens flag.
Proof.
  split; [|apply format_to_jsonl_records].
  unfold chat_records. apply Forall_fmap, Forall_forall. intros msg Hin. simpl.
  exists msg. split_and!; [done | done |].
  apply elem_of_token_limited_messages in Hin as [Hb _].
  rewrite !blank_app, blank_rstrip, Hb. by rewrite andb_false_r.
Qed.

Lemma assistant_content_inj m1 m2 :
  assistant_content m1 = assistant_content m2 → PyStr.rstrip m1 = PyStr.rstrip m2.
Proof.
  unfold assistant_content. intros H. injection H as H.
  by apply (app_inv_tail_str (PyStr.rstrip m1) (PyStr.rstrip m2) newline).
Qed.

(** C2, as the code has it. With deduplication, the messages behind the
    records are pairwise different, and so are the assistant contents
    when no such message ends in whitespace; without deduplication, every
    message that is not blank after truncation gives a record, once per
    occurrence and in the original order. *)
Theorem deduplication_of_messages (messages : list string) (max_tokens : Z) :
  NoDup (token_limited_messages get_encoding messages max_tokens true)
  ∧ (Forall (λ msg, PyStr.rstrip msg = msg)
       (token_limited_messages get_encoding messages max_tokens true) →
     NoDup (emitted_contents get_encoding messages max_tokens true))
  ∧ emitted_contents get_encoding messages max_tokens false
    = (λ msg, PyStr (assistant_content msg))
        <$> filter (λ msg, blank msg = false) (token_limit get_encoding max_tokens <$> messages).
Proof.
  assert (NoDup (token_limited_messages get_encoding messages max_tokens true)) as Hnd.
  { rewrite token_limited_messages_passes by apply _.
    apply NoDup_filter, NoDup_keep_first. }
  split_and!; [done | |].
  - intros Hstrip. rewrite emitted_contents_eq. rewrite Forall_forall in Hstrip.
    apply NoDup_fmap_2_strong; [|done].
    intros m1 m2 H1 H2 Heq.
    assert (PyStr.rstrip m1 = PyStr.rstrip m2) as Hr
      by (apply assistant_content_inj; congruence).
    by rewrite <- (Hstrip m1 H1), <- (Hstrip m2 H2).
  - rewrite emitted_contents_eq, token_limited_messages_passes by apply _.
    simpl. f_equal.
    apply (filter_empty_entries_spec (token_limit get_encoding max_tokens <$> messages)).
Qed.

End FormatterFacts.

Lemma normalizer_passes_in_order_witness :
  token_limited_messages None (Seen:=gset string) ["abcdefgh1"; "  "; "abcdefgh2"; "x"] 1 true
  = Spec.normalizer (count_tokens None) (truncate_to_tokens None) 1 true
      ["abcdefgh1"; "  "; "abcdefgh2"; "x"]
  ∧ remove_duplicates (Seen:=gset string) ["x"; "y"; "x"] `sublist_of` ["x"; "y"; "x"].
Proof.
  destruct (normalizer_passes_in_order None (Seen:=gset string)
              ["abcdefgh1"; "  "; "abcdefgh2"; "x"] 1 true) as (Heq & _ & Hsub & _).
  split; [exact Heq | apply Hsub].
Defined.

Lemma chat_record_shape_witness :
  Forall (λ record, ∃ msg,
            msg ∈ token_limited_messages None (Seen:=gset string) ["hi  "; "  "] 5 true
            ∧ record = PyDict [("messages", PyList [
                PyDict [("role", PyStr "user");
                        ("content", PyStr "Write a blog post in my voice.")];
                PyDict [("role", PyStr "assistant");
                        ("content", PyStr (" " +:+ PyStr.rstrip msg +:+ newline))]])]
            ∧ blank (" " +:+ PyStr.rstrip msg +:+ newline) = false)
         (chat_records None (Seen:=gset string) ["hi  "; "  "] 5 true).
Proof.
  exact (proj1 (chat_record_shape None (Seen:=gset string) ["hi  "; "  "] 5 true)).
Defined.

Lemma deduplication_of_messages_witness :
  NoDup (token_limited_messages None (Seen:=gset string) ["abc defg"; "abc"; "abc"] 1 true)
  ∧ NoDup (emitted_contents None (Seen:=gset string) ["abc"; "de"; "abc"] 5 true)
  ∧ emitted_contents None (Seen:=gset string) ["abc"; "de"; "abc"] 5 false
    = [PyStr (" abc" +:+ newline); PyStr (" de" +:+ newline); PyStr (" abc" +:+ newline)].
Proof.
  destruct (deduplication_of_messages None (Seen:=gset string)
              ["abc defg"; "abc"; "abc"] 1) as (Hfragments & _ & _).
  destruct (deduplication_of_messages None (Seen:=gset string)
              ["abc"; "de"; "abc"] 5) as (_ & Hcontents & Hall).
  split_and!; [exact Hfragments | | exact Hall].
  apply Hcontents. vm_compute. repeat constructor.
Defined.

(** C2, as stated: the fragments ["abc defg"] and ["abc"] with the limit 1
    and a failing backend; the first is cut to ["abc "], both survive the
    deduplication, and both records have the content [" abc\n"]. *)
Lemma equal_contents_after_deduplication :
  ¬ NoDup (emitted_contents None (Seen:=gset string) ["abc defg"; "abc"] 1 true).
Proof.
  vm_compute. intros H. apply NoDup_cons in H as [H _].
  apply H. by left.
Qed.

(** ** The token limit *)

Lemma rough_estimate_rstrip s : (rough_estimate (PyStr.rstrip s) ≤ rough_estimate s)%Z.
Proof.
  unfold rough_estimate. apply Z.div_le_mono; [lia|].
  pose proof (length_rstrip s). lia.
Qed.

Lemma list_slice_to_nonneg {A} (l : list A) n :
  (0 ≤ n)%Z → list_slice_to l n = take (Z.to_nat n) l.
Proof.
  intros Hn. unfold list_slice_to, PyStr.slice_stop.
  destruct (n <? 0)%Z eqn:Hlt; [lia|done].
Qed.

Section TokenLimit.

Variable get_encoding : option Encoding.

Hypothesis backend_ok :
  match get_encoding with
  | Some encoding => well_behaved encoding
  | None => True
  end.

Lemma count_tokens_rstrip s :
  (count_tokens get_encoding (PyStr.rstrip s) ≤ count_tokens get_encoding s)%Z.
Proof.
  destruct get_encoding as [encoding|].
  - destruct backend_ok as (_ & _ & Hr). apply Hr.
  - apply rough_estimate_rstrip.
Qed.

Lemma count_tokens_token_limit max_tokens msg :
  (0 ≤ max_tokens)%Z →
  (count_tokens get_encoding (token_limit get_encoding max_tokens msg) ≤ max_tokens)%Z.
Proof.
  intros Hmax. unfold token_limit.
  destruct (Z.ltb_spec max_tokens (count_tokens get_encoding msg)) as [Hover|]; [|done].
  unfold truncate_to_tokens.
  destruct (Z.leb_spec (count_tokens get_encoding msg) max_tokens); [lia|].
  destruct get_encoding as [encoding|].
  - destruct backend_ok as (Htotal & Hprefix & _).
    destruct (Htotal msg) as [tokens Htokens]. rewrite Htokens.
    rewrite list_slice_to_nonneg by done.
    etrans; [by eapply Hprefix|]. lia.
  - unfold count_tokens, rough_estimate.
    pose proof (length_slice_to msg (max_tokens * 4)).
    apply Z.div_le_upper_bound; lia.
Qed.

Context {Seen : Type} `{!PySet Seen} `{!PySetLaws Seen}.

(** where the bound holds: for a limit that is not negative, the
    assistant content of every record, taken back out of its convention,
    counts at most the limit, in tokens for an encoding assumed well
    behaved, in the estimate [len // 4] when the backend fails *)
Lemma token_limit_respected (messages : list string) (max_tokens : Z) (flag : bool) :
  (0 ≤ max_tokens)%Z →
  Forall (within_limit get_encoding max_tokens)
    (emitted_contents get_encoding messages max_tokens flag).
Proof.
  intros Hmax. rewrite emitted_contents_eq by apply _.
  apply Forall_fmap, Forall_forall. intros msg Hin.
  change (count_tokens get_encoding (strip_convention (assistant_content msg))
          ≤ max_tokens)%Z.
  rewrite strip_convention_assistant_content.
  apply elem_of_token_limited_messages in Hin as (_ & msg0 & _ & ->); [|apply _].
  etrans; [apply count_tokens_rstrip|]. by apply count_tokens_token_limit.
Qed.

End TokenLimit.

Lemma count_tokens_nonneg get_encoding s : (0 ≤ count_tokens get_encoding s)%Z.
Proof.
  unfold count_tokens, rough_estimate.
  destruct get_encoding as [encoding|]; [destruct (encode encoding s)|];
    try lia; apply Z.div_pos; lia.
Qed.

(** under the fallback the bound is on the estimate only: the cut text
    can encode again, to more tokens than the limit *)
Example fallback_overshoots :
  emitted_contents (Some guarded_encoding) (Seen:=gset string)
    ["aaaaaaaaaaaa<|endoftext|>"] 3 true
  = [PyStr (" aaaaaaaaaaaa" +:+ newline)]
  ∧ count_tokens (Some guarded_encoding) "aaaaaaaaaaaa" = 12%Z.
Proof. split; by vm_compute. Qed.

Lemma length_char_codes s : length (char_codes s) = String.length s.
Proof. induction s as [|c r IH]; simpl; [done|]. by rewrite IH. Qed.

Lemma length_of_char_codes l : String.length (of_char_codes l) = length l.
Proof. induction l as [|n r IH]; simpl; [done|]. by rewrite IH. Qed.

Lemma char_encoding_well_behaved : well_behaved char_encoding.
Proof.
  split_and!.
  - intros s. by eexists.
  - intros s tokens n _. unfold count_tokens. simpl.
    rewrite length_char_codes, length_of_char_codes, length_take. lia.
  - intros s. unfold count_tokens. simpl. rewrite !length_char_codes.
    pose proof (length_rstrip s). lia.
Qed.

Lemma token_limit_respected_witness :
  Forall (within_limit (Some char_encoding) 5)
    (emitted_contents (Some char_encoding) (Seen:=gset string) ["hello world"; "hi"] 5 true)
  ∧ Forall (within_limit None 1)
      (emitted_contents None (Seen:=gset string) ["abc defg"; "abc"] 1 false).
Proof.
  split.
  - apply (token_limit_respected (Some char_encoding) char_encoding_well_behaved). lia.
  - apply (token_limit_respected None I). lia.
Defined.

(** C1. The failing input: the message ["hello world"] with the limit
    -1. The comparison of line 193 holds for every message, and
    truncate_to_tokens, whose slice [tokens[:-1]] drops the last token
    only, returns a text that does not fit the limit; the record is
    emitted, and its content taken back out of the convention counts above
    the limit: ten tokens of the character-level encoding, and one in the
    estimate [len // 4] when the backend fails. *)
Theorem negative_limit_is_not_enforced :
  truncate_to_tokens (Some char_encoding) "hello world" (-1) = "hello worl"
  ∧ emitted_contents (Some char_encoding) (Seen:=gset string) ["hello world"] (-1) true
    = [PyStr (" hello worl" +:+ newline)]
  ∧ count_tokens (Some char_encoding) (strip_convention (" hello worl" +:+ newline)) = 10%Z
  ∧ ¬ Forall (within_limit (Some char_encoding) (-1))
        (emitted_contents (Some char_encoding) (Seen:=gset string)
           ["hello world"] (-1) true)
  ∧ emitted_contents None (Seen:=gset string) ["hello world"] (-1) true
    = [PyStr (" hello w" +:+ newline)]
  ∧ ¬ Forall (within_limit None (-1))
        (emitted_contents None (Seen:=gset string) ["hello world"] (-1) true).
Proof.
  assert (emitted_contents (Some char_encoding) (Seen:=gset string) ["hello world"] (-1) true
          = [PyStr (" hello worl" +:+ newline)]) as Hchar by (vm_compute; reflexivity).
  assert (emitted_contents None (Seen:=gset string) ["hello world"] (-1) true
          = [PyStr (" hello w" +:+ newline)]) as Hnone by (vm_compute; reflexivity).
  split_and!; [by vm_compute | exact Hchar | by vm_compute | | exact Hnone |].
  - rewrite Hchar. intros H. apply Forall_cons in H as [H _]. vm_compute in H. by apply H.
  - rewrite Hnone. intros H. apply Forall_cons in H as [H _]. vm_compute in H. by apply H.
Qed.

(** ** The fallbacks of the tokenizer *)

(** C4, as the code has it. When the backend fails on a text, the count
    is the floor of a quarter of its length, and the truncation returns
    the text as it is when that count is within the limit, and the slice
    [text[:limit * 4]] otherwise, which is the first [limit * 4]
    characters when the limit is not negative. *)
Theorem fallback_count_and_truncate (get_encoding : option Encoding) (text : string)
    (limit : Z) :
  backend_fails get_encoding text →
  count_tokens get_encoding text = (Z.of_nat (String.length text) / 4)%Z
  ∧ truncate_to_tokens get_encoding text limit
    = (if (Z.of_nat (String.length text) / 4 <=? limit)%Z then text
       else PyStr.slice_to text (limit * 4))
  ∧ ((0 ≤ limit)%Z →
     PyStr.slice_to text (limit * 4) = PyStr.take (Z.to_nat (limit * 4)) text).
Proof.
  intros Hfail.
  assert (count_tokens get_encoding text = (Z.of_nat (String.length text) / 4)%Z) as Hcount.
  { unfold count_tokens. destruct get_encoding as [encoding|]; [|done].
    simpl in Hfail. by rewrite Hfail. }
  split_and!; [done | |].
  - unfold truncate_to_tokens. rewrite Hcount.
    destruct (_ <=? _)%Z; [done|].
    destruct get_encoding as [encoding|]; [|done]. simpl in Hfail. by rewrite Hfail.
  - intros Hlimit. apply slice_to_nonneg. lia.
Qed.

Lemma fallback_count_and_truncate_witness :
  count_tokens None "abcdefghi" = 2%Z
  ∧ truncate_to_tokens None "abcdefghi" 1 = "abcd"
  ∧ truncate_to_tokens None "abcdefg" 1 = "abcdefg".
Proof.
  destruct (fallback_count_and_truncate None "abcdefghi" 1 I) as (Hcount & Hcut & _).
  destruct (fallback_count_and_truncate None "abcdefg" 1 I) as (_ & Hwhole & _).
  split_and!; [exact Hcount | exact Hcut | exact Hwhole].
Defined.

(** C4, as stated: for the seven characters of ["abcdefg"] the count is 1,
    not the ceiling 2, and with the limit 1 the text is returned whole,
    not cut to four characters. *)
Lemma ceiling_fallback_fails : ¬ ceiling_fallback "abcdefg" 1.
Proof. intros [Hcount _]. vm_compute in Hcount. discriminate. Qed.

(** ** [main] *)

Section Main.

Variable get_encoding : option Encoding.
Context {Seen : Type} `{!PySet Seen}.


End Main.



(** ** Order of extraction and independence of the set layout *)

Lemma part_step_appends i j node_id part cm ee cm1 ee1 :
  part_step i node_id part cm ee = (inr cm1, ee1) →
  ∃ delta, cm1 = cm ++ delta
           ∧ ∀ cm0 ee0, (part_step j node_id part cm0 ee0).1 = inr (cm0 ++ delta).
Proof.
  destruct part as [| | | |s|l|d]; simpl; unfold bind; simpl;
    try (intros [= <- _]; exists []; split; [by rewrite app_nil_r|];
         intros cm0 ee0; by rewrite app_nil_r).
  - destruct (PyStr.truthy (PyStr.strip s)); intros [= <- _].
    + by exists [PyStr.strip s].
    + exists []. split; [by rewrite app_nil_r|]. intros. by rewrite app_nil_r.
  - destruct (eq_str _ _).
    + destruct (call_strip _) as [e|text]; simpl; [done|].
      destruct (PyStr.truthy text); intros [= <- _].
      * by exists [text].
      * exists []. split; [by rewrite app_nil_r|]. intros. by rewrite app_nil_r.
    + intros [= <- _]. exists []. split; [by rewrite app_nil_r|].
      intros. by rewrite app_nil_r.
Qed.

Lemma for_each_appends {A} (f g : A → list string → body (list string)) (l : list A) :
  (∀ a cm ee cm1 ee1, f a cm ee = (inr cm1, ee1) →
     ∃ delta, cm1 = cm ++ delta ∧ ∀ cm0 ee0, (g a cm0 ee0).1 = inr (cm0 ++ delta)) →
  ∀ cm ee cm1 ee1, for_each f l cm ee = (inr cm1, ee1) →
     ∃ delta, cm1 = cm ++ delta ∧ ∀ cm0 ee0, (for_each g l cm0 ee0).1 = inr (cm0 ++ delta).
Proof.
  intros Hfg. induction l as [|a r IH]; intros cm ee cm1 ee1; simpl.
  - intros [= <- _]. exists []. split; [by rewrite app_nil_r|].
    intros. by rewrite app_nil_r.
  - unfold bind. destruct (f a cm ee) as [[e|c1] e1] eqn:Hf; [done|].
    intros Hrest. apply Hfg in Hf as (d1 & -> & Hg).
    apply IH in Hrest as (d2 & -> & Hgr).
    exists (d1 ++ d2). split; [by rewrite app_assoc|].
    intros cm0 ee0. specialize (Hg cm0 ee0).
    destruct (g a cm0 ee0) as [[e|c2] e2]; simpl in Hg; [done|].
    injection Hg as ->. by rewrite Hgr, app_assoc.
Qed.

Lemma node_step_appends i j item cm ee cm1 ee1 :
  node_step i item cm ee = (inr cm1, ee1) →
  ∃ delta, cm1 = cm ++ delta
           ∧ ∀ cm0 ee0, (node_step j item cm0 ee0).1 = inr (cm0 ++ delta).
Proof.
  destruct item as [node_id node]. unfold node_step, bind.
  assert (∀ ee', ret cm ee' = (inr cm1, ee1) →
    ∃ delta, cm1 = cm ++ delta
             ∧ ∀ (cm0 : list string) (ee0 : list value),
                 (ret cm0 ee0).1 = inr (cm0 ++ delta))
    as Hskip.
  { unfold ret. intros ee' [= <- _]. exists []. split; [by rewrite app_nil_r|].
    intros. simpl. by rewrite app_nil_r. }
  destruct (call_get node "message" PyNone) as [e|message]; simpl; [done|].
  destruct (truthy message); simpl; [|apply Hskip].
  destruct (call_get message "author" _) as [e|author]; simpl; [done|].
  destruct (call_get author "role" _) as [e|role]; simpl; [done|].
  destruct (eq_str role "user"); simpl; [|apply Hskip].
  destruct (call_get message "content" _) as [e|content]; simpl; [done|].
  destruct (call_get content "parts" _) as [e|parts]; simpl; [done|].
  destruct (iterate parts) as [e|parts']; simpl; [done|].
  apply for_each_appends. intros a c e0 c1 e1. apply part_step_appends.
Qed.

(** the messages of a conversation are those of its nodes, in the order
    of the items of its mapping *)
Lemma conversation_messages_in_mapping_order i items cm0 ee cm ee' :
  for_each (node_step i) items cm0 ee = (inr cm, ee') →
  cm = cm0 ++ concat (node_messages <$> items).
Proof.
  revert cm0 ee. induction items as [|item rest IH]; intros cm0 ee; simpl.
  - intros [= <- _]. by rewrite app_nil_r.
  - unfold bind. destruct (node_step i item cm0 ee) as [[e|c1] e1] eqn:Hn; [done|].
    intros Hrest. apply IH in Hrest as ->.
    apply (node_step_appends i 0) in Hn as (delta & -> & Hd).
    unfold node_messages. rewrite (Hd [] []). simpl. by rewrite app_assoc.
Qed.

Section SetLayouts.

Variable get_encoding : option Encoding.
Context {Seen1 : Type} `{!PySet Seen1} `{!PySetLaws Seen1}.
Context {Seen2 : Type} `{!PySet Seen2} `{!PySetLaws Seen2}.



End SetLayouts.

(** two nodes in the two orders of insertion *)
Example mapping_order :
  let node text :=
    PyDict [("message", PyDict [("author", PyDict [("role", PyStr "user")]);
                                ("content", PyDict [("parts", PyList [PyStr text])])])] in
  convo_messages (PyDict [("mapping", PyDict [("a", node "first"); ("b", node "second")])])
  = ["first"; "second"]
  ∧ convo_messages (PyDict [("mapping", PyDict [("b", node "second"); ("a", node "first")])])
    = ["second"; "first"].
Proof. split; reflexivity. Qed.

(** ** Runs on small exports *)

(** the end-to-end case of the specification: a conversation with the
    same user part twice and a conversation with an empty mapping *)
Example end_to_end :
  let node :=
    PyDict [("message", PyDict [
      ("author", PyDict [("role", PyStr "user")]);
      ("content", PyDict [("parts", PyList [PyStr "Hello world. Great!";
                                            PyStr "Hello world. Great!"])])])] in
  let export := PyList [PyDict [("mapping", PyDict [("n1", node)])];
                        PyDict [("mapping", PyDict [])]] in
  ∃ st, extract export = inr st
        ∧ all_user_messages st = ["Hello world. Great!"; "Hello world. Great!"]
        ∧ entry_type <$> error_entries st = [PyStr "missing_mapping"]
        ∧ skipped_conversations st = 1
        ∧ emitted_contents (Some char_encoding) (Seen:=gset string)
            (all_user_messages st) 2048 true
          = [PyStr (" Hello world. Great!" +:+ newline)].
Proof. eexists. split; [reflexivity|]. split_and!; by vm_compute. Qed.

(** a conversation that raises at its third part: the entry logged for
    its second part stays, the message of its first part is dropped *)
Example exception_after_progress :
  let node :=
    PyDict [("message", PyDict [
      ("author", PyDict [("role", PyStr "user")]);
      ("content", PyDict [("parts", PyList [
         PyStr "kept nowhere";
         PyDict [("content_type", PyStr "image_asset_pointer")];
         PyDict [("content_type", PyStr "audio_transcription"); ("text", PyNone)]])])])] in
  let st := conversation_step 0 (PyDict [("mapping", PyDict [("n1", node)])])
              extraction_start in
  all_user_messages st = []
  ∧ entry_type <$> error_entries st = [PyStr "non_text_content"; PyStr "exception"]
  ∧ skipped_conversations st = 1.
Proof. split_and!; reflexivity. Qed.

(** the fragments of the counterexample to C2 come out of the extractor
    as they are *)
Example fragments_of_an_export :
  let node :=
    PyDict [("message", PyDict [
      ("author", PyDict [("role", PyStr "user")]);
      ("content", PyDict [("parts", PyList [PyStr "abc defg"; PyStr "abc"])])])] in
  extract (PyList [PyDict [("mapping", PyDict [("n1", node)])]])
  = inr {| all_user_messages := ["abc defg"; "abc"];
           skipped_conversations := 0; error_entries := [] |}.
Proof. reflexivity. Qed.

(** deduplicating before truncating would keep what the fixed order
    removes: two messages that are equal only once truncated *)
Example order_of_passes_matters :
  token_limited_messages None (Seen:=gset string) ["abcdefgh1"; "abcdefgh2"] 1 true
  = ["abcd"]
  ∧ token_limit None 1 <$> remove_duplicates (Seen:=gset string) ["abcdefgh1"; "abcdefgh2"]
    = ["abcd"; "abcd"].
Proof. split; by vm_compute. Qed.

(** * Further properties *)

(** ** Stripping *)

Lemma rstrip_rstrip s : PyStr.rstrip (PyStr.rstrip s) = PyStr.rstrip s.
Proof.
  induction s as [|c r IH]; simpl; [done|].
  destruct (PyStr.rstrip r) as [|d r'] eqn:Hr.
  - destruct (PyStr.isspace c) eqn:Hc; simpl; [done|]. by rewrite Hc.
  - simpl in *. rewrite IH. done.
Qed.

Lemma lstrip_rstrip s : PyStr.lstrip (PyStr.rstrip s) = PyStr.rstrip (PyStr.lstrip s).
Proof.
  induction s as [|c r IH]; simpl; [done|].
  destruct (PyStr.isspace c) eqn:Hc.
  - destruct (PyStr.rstrip r) as [|d r'] eqn:Hr.
    + simpl. symmetry. apply rstrip_empty. rewrite blank_lstrip. by apply rstrip_empty.
    + simpl. rewrite Hc. apply IH.
  - simpl. destruct (PyStr.rstrip r) as [|d r'] eqn:Hr; simpl; by rewrite Hc.
Qed.

Lemma lstrip_lstrip s : PyStr.lstrip (PyStr.lstrip s) = PyStr.lstrip s.
Proof.
  induction s as [|c r IH]; simpl; [done|].
  destruct (PyStr.isspace c) eqn:Hc; [done|]. simpl. by rewrite Hc.
Qed.

Lemma strip_strip s : PyStr.strip (PyStr.strip s) = PyStr.strip s.
Proof.
  unfold PyStr.strip. by rewrite lstrip_rstrip, lstrip_lstrip, rstrip_rstrip.
Qed.

Lemma blank_strip s : blank (PyStr.strip s) = blank s.
Proof. unfold PyStr.strip. by rewrite blank_rstrip, blank_lstrip. Qed.

Lemma trimmed_strip s : PyStr.truthy (PyStr.strip s) = true → trimmed (PyStr.strip s).
Proof.
  intros Ht. split; [apply strip_strip|].
  rewrite blank_strip. rewrite truthy_strip in Ht. by destruct (blank s).
Qed.

(** a trimmed message has no trailing whitespace to take off *)
Lemma trimmed_rstrip msg : trimmed msg → PyStr.rstrip msg = msg.
Proof.
  intros [Hs _]. rewrite <- Hs at 1. unfold PyStr.strip. rewrite rstrip_rstrip. exact Hs.
Qed.

(** ** Invariants of the extraction loops *)

Lemma for_each_preserves {A St} (f : A → St → body St) (Inv : St → Prop) (l : list A) :
  (∀ a s ee s' ee', Inv s → f a s ee = (inr s', ee') → Inv s') →
  ∀ s ee s' ee', Inv s → for_each f l s ee = (inr s', ee') → Inv s'.
Proof.
  intros Hf. induction l as [|a r IH]; intros s ee s' ee' Hs; simpl.
  - by intros [= <- _].
  - unfold bind. destruct (f a s ee) as [[e|s1] ee1] eqn:Ha; [done|].
    apply IH. by eapply Hf.
Qed.

Lemma part_step_trimmed i node_id part cm ee cm' ee' :
  Forall trimmed cm → part_step i node_id part cm ee = (inr cm', ee') → Forall trimmed cm'.
Proof.
  intros Hcm. destruct part as [| | | |s|l|d]; simpl; unfold bind; simpl;
    try (by intros [= <- _]).
  - destruct (PyStr.truthy (PyStr.strip s)) eqn:Ht; intros [= <- _]; [|done].
    apply Forall_app. split; [done|]. constructor; [by apply trimmed_strip|constructor].
  - destruct (eq_str _ _); [|by intros [= <- _]].
    destruct (dict_get d "text" (PyStr EmptyString)); simpl; try done.
    destruct (PyStr.truthy (PyStr.strip s)) eqn:Ht; intros [= <- _]; [|done].
    apply Forall_app. split; [done|]. constructor; [by apply trimmed_strip|constructor].
Qed.

Lemma node_step_trimmed i item cm ee cm' ee' :
  Forall trimmed cm → node_step i item cm ee = (inr cm', ee') → Forall trimmed cm'.
Proof.
  intros Hcm. destruct item as [node_id node]. unfold node_step, bind.
  destruct (call_get node "message" PyNone) as [e|message]; simpl; [done|].
  destruct (truthy message); simpl; [|by intros [= <- _]].
  destruct (call_get message "author" _) as [e|author]; simpl; [done|].
  destruct (call_get author "role" _) as [e|role]; simpl; [done|].
  destruct (eq_str role "user"); simpl; [|by intros [= <- _]].
  destruct (call_get message "content" _) as [e|content]; simpl; [done|].
  destruct (call_get content "parts" _) as [e|parts]; simpl; [done|].
  destruct (iterate parts) as [e|parts']; simpl; [done|].
  apply (for_each_preserves (part_step i node_id) (Forall trimmed)); [|done].
  intros a s e0 s' e1. apply part_step_trimmed.
Qed.

Lemma conversation_body_trimmed i convo ee cm ee' :
  conversation_body i convo ee = (inr (Some cm), ee') → Forall trimmed cm.
Proof.
  unfold conversation_body, bind.
  destruct (call_get convo "mapping" _) as [e|mapping]; simpl; [done|].
  destruct (truthy mapping); simpl; [|done].
  destruct (call_items mapping) as [e|items]; simpl; [done|].
  destruct (for_each (node_step i) items [] ee) as [[e|cm0] ee1] eqn:Hloop;
    simpl; [done|].
  intros [= <- _].
  eapply (for_each_preserves (node_step i) (Forall trimmed)); [|constructor|exact Hloop].
  intros a s e0 s' e1. apply node_step_trimmed.
Qed.

Lemma conversation_step_trimmed i convo st :
  Forall trimmed (all_user_messages st) →
  Forall trimmed (all_user_messages (conversation_step i convo st)).
Proof.
  intros Hst. unfold conversation_step.
  destruct (conversation_body i convo (error_entries st)) as [[e|[cm|]] ee] eqn:Hb;
    simpl; try done.
  apply Forall_app. split; [done|]. by eapply conversation_body_trimmed.
Qed.

(** X1. Every message the extractor returns is without leading and
    trailing whitespace and is not empty. *)
Theorem extracted_messages_are_trimmed (conversations_data : value) (st : extraction) :
  extract conversations_data = inr st → Forall trimmed (all_user_messages st).
Proof.
  unfold extract. destruct (iterate conversations_data) as [e|convos]; [done|].
  intros [= <-].
  assert (∀ i st0, Forall trimmed (all_user_messages st0) →
            Forall trimmed (all_user_messages (extract_loop i convos st0))) as Hloop.
  { induction convos as [|convo rest IH]; intros i st0 H0; simpl; [done|].
    apply IH. by apply conversation_step_trimmed. }
  apply Hloop. constructor.
Qed.

Lemma extracted_messages_are_trimmed_witness :
  let node :=
    PyDict [("message", PyDict [
      ("author", PyDict [("role", PyStr "user")]);
      ("content", PyDict [("parts", PyList [PyStr "  padded text  "; PyStr "   "])])])] in
  let export := PyList [PyDict [("mapping", PyDict [("n1", node)])]] in
  let st := {| all_user_messages := ["padded text"]; skipped_conversations := 0;
               error_entries := [] |} in
  extract export = inr st ∧ Forall trimmed (all_user_messages st).
Proof.
  intros node export st.
  assert (extract export = inr st) as Hrun by reflexivity.
  split; [exact Hrun|]. exact (extracted_messages_are_trimmed export st Hrun).
Defined.


(** ** What the extractor logs *)

Lemma logs_ret {A} P (a : A) : logs P (ret a).
Proof. intros ee r ee' [= <- <-]. exists []. by rewrite app_nil_r. Qed.

Lemma logs_lift {A} P (x : result A) : logs P (lift x).
Proof.
  destruct x; intros ee r ee' [= <- <-]; exists []; by rewrite app_nil_r.
Qed.

Lemma logs_append_entry (P : value → Prop) entry : P entry → logs P (append_entry entry).
Proof. intros HP ee r ee' [= <- <-]. exists [entry]. split; [done|]. by constructor. Qed.

Lemma logs_bind {A B} P (m : body A) (k : A → body B) :
  logs P m → (∀ a, logs P (k a)) → logs P (bind m k).
Proof.
  intros Hm Hk ee r ee'. unfold bind.
  destruct (m ee) as [[e|a] ee1] eqn:Hrun.
  - intros [= <- <-]. by eapply Hm.
  - intros Hrest. apply Hm in Hrun as (d1 & -> & H1).
    apply Hk in Hrest as (d2 & -> & H2).
    exists (d1 ++ d2). split; [by rewrite app_assoc|]. by apply Forall_app.
Qed.

Lemma logs_for_each {A St} P (f : A → St → body St) (l : list A) :
  (∀ a s, logs P (f a s)) → ∀ s, logs P (for_each f l s).
Proof.
  intros Hf. induction l as [|a r IH]; intros s; simpl.
  - apply logs_ret.
  - apply logs_bind; [apply Hf|]. intros s'. apply IH.
Qed.

Lemma part_step_logs i node_id part cm : logs (part_level i) (part_step i node_id part cm).
Proof.
  destruct part as [| | | |s|l|d]; simpl;
    try (apply logs_bind; [by apply logs_append_entry|intros; apply logs_ret]).
  - destruct (PyStr.truthy _); apply logs_ret.
  - destruct (eq_str _ _).
    + apply logs_bind; [apply logs_lift|]. intros text.
      destruct (PyStr.truthy text); apply logs_ret.
    + apply logs_bind; [by apply logs_append_entry|intros; apply logs_ret].
Qed.

Lemma node_step_logs i item cm : logs (part_level i) (node_step i item cm).
Proof.
  destruct item as [node_id node]. unfold node_step.
  apply logs_bind; [apply logs_lift|]. intros message.
  destruct (truthy message); simpl; [|apply logs_ret].
  apply logs_bind; [apply logs_lift|]. intros author.
  apply logs_bind; [apply logs_lift|]. intros role.
  destruct (eq_str role "user"); simpl; [|apply logs_ret].
  apply logs_bind; [apply logs_lift|]. intros content.
  apply logs_bind; [apply logs_lift|]. intros parts.
  apply logs_bind; [apply logs_lift|]. intros parts'.
  apply logs_for_each. intros. apply part_step_logs.
Qed.

(** what one conversation adds to the entries: entries for its parts,
    then at most one entry for the conversation, which is there exactly
    when the conversation is counted as skipped *)
Lemma conversation_step_entries i convo st :
  ∃ added,
    error_entries (conversation_step i convo st) = error_entries st ++ added
    ∧ Forall (λ entry, entry_index entry = PyInt (Z.of_nat i)) added
    ∧ skipped_conversations (conversation_step i convo st)
      = skipped_conversations st + length (filter (λ entry, conversation_level entry) added).
Proof.
  assert (∀ l, Forall (part_level i) l →
            Forall (λ entry, entry_index entry = PyInt (Z.of_nat i)) l
            ∧ filter (λ entry, conversation_level entry) l = []) as Hparts.
  { intros l Hl. split; [eapply Forall_impl; [done|by intros ? [_ ?]]|].
    induction Hl as [|e l [He _] _ IH]; [done|].
    rewrite filter_cons_False; [done|]. rewrite He. by intros []. }
  unfold conversation_step, conversation_body, bind.
  destruct (call_get convo "mapping" _) as [e|mapping]; simpl.
  { exists [exception_entry i convo e]. split_and!; [done|by repeat constructor|simpl; lia]. }
  destruct (truthy mapping); simpl.
  - destruct (call_items mapping) as [e|items]; simpl.
    { exists [exception_entry i convo e]. split_and!; [done|by repeat constructor|simpl; lia]. }
    destruct (for_each (node_step i) items [] (error_entries st)) as [[e|cm] ee] eqn:Hloop.
    + apply (logs_for_each (part_level i)) in Hloop as (added & -> & Hadded);
        [|intros; apply node_step_logs].
      apply Hparts in Hadded as [Hidx Hnone]. simpl.
      exists (added ++ [exception_entry i convo e]). split_and!.
      * by rewrite app_assoc.
      * apply Forall_app. split; [done|by repeat constructor].
      * rewrite filter_app, Hnone. simpl. lia.
    + apply (logs_for_each (part_level i)) in Hloop as (added & -> & Hadded);
        [|intros; apply node_step_logs].
      apply Hparts in Hadded as [Hidx Hnone]. simpl.
      exists added. split_and!; [done|done|]. rewrite Hnone. simpl. lia.
  - exists [missing_mapping_entry i convo].
    split_and!; [done|by repeat constructor|simpl; lia].
Qed.

Lemma extract_loop_entries i convos st :
  ∃ added,
    error_entries (extract_loop i convos st) = error_entries st ++ added
    ∧ Forall (λ entry, ∃ k, i ≤ k < i + length convos
                            ∧ entry_index entry = PyInt (Z.of_nat k)) added
    ∧ skipped_conversations (extract_loop i convos st)
      = skipped_conversations st + length (filter (λ entry, conversation_level entry) added).
Proof.
  revert i st. induction convos as [|convo rest IH]; intros i st; simpl.
  - exists []. split_and!; [by rewrite app_nil_r|constructor|simpl; lia].
  - destruct (conversation_step_entries i convo st) as (d1 & H1 & Hi1 & Hs1).
    destruct (IH (S i) (conversation_step i convo st)) as (d2 & H2 & Hi2 & Hs2).
    exists (d1 ++ d2). split_and!.
    + by rewrite H2, H1, app_assoc.
    + apply Forall_app. split.
      * eapply Forall_impl; [done|]. intros e He. exists i. split; [lia|done].
      * eapply Forall_impl; [done|]. intros e (k & Hk & He). exists k. split; [lia|done].
    + rewrite Hs2, Hs1, filter_app, length_app. lia.
Qed.

(** X3. The count of skipped conversations is the number of entries of
    type ["missing_mapping"] or ["exception"]: a skipped conversation logs
    exactly one of them, and no other conversation or part logs any. *)
Theorem skipped_count_matches_entries (conversations_data : value) (st : extraction) :
  extract conversations_data = inr st →
  skipped_conversations st
  = length (filter (λ entry, conversation_level entry) (error_entries st)).
Proof.
  unfold extract. destruct (iterate conversations_data) as [e|convos]; [done|].
  intros [= <-].
  destruct (extract_loop_entries 0 convos extraction_start) as (added & -> & _ & ->).
  done.
Qed.

Lemma skipped_count_matches_entries_witness :
  let export := PyList [PyInt 4; PyDict [("mapping", PyDict [])]; PyDict [("mapping",
    PyDict [("n1", PyDict [("message", PyDict [
      ("author", PyDict [("role", PyStr "user")]);
      ("content", PyDict [("parts", PyList [PyInt 7])])])])])]] in
  ∃ st, extract export = inr st
        ∧ skipped_conversations st = 2
        ∧ length (error_entries st) = 3
        ∧ skipped_conversations st
          = length (filter (λ entry, conversation_level entry) (error_entries st)).
Proof.
  intros export. eexists. split; [reflexivity|]. split_and!; [reflexivity|reflexivity|].
  apply (skipped_count_matches_entries export). reflexivity.
Defined.

(** X4. Every entry carries, as its conversation index, the position of a
    conversation of the export. *)
Theorem entries_are_indexed (conversations_data : value) (convos : list value)
    (st : extraction) :
  iterate conversations_data = inr convos →
  extract conversations_data = inr st →
  Forall (λ entry, ∃ k, k < length convos ∧ entry_index entry = PyInt (Z.of_nat k))
    (error_entries st).
Proof.
  unfold extract. intros ->. intros [= <-].
  destruct (extract_loop_entries 0 convos extraction_start) as (added & -> & Hidx & _).
  simpl. eapply Forall_impl; [done|]. intros entry (k & Hk & He).
  exists k. split; [lia|done].
Qed.

Lemma entries_are_indexed_witness :
  let export := PyList [PyInt 4; PyDict [("mapping", PyDict [])]] in
  ∃ st, extract export = inr st
        ∧ Forall (λ entry, ∃ k, k < 2 ∧ entry_index entry = PyInt (Z.of_nat k))
            (error_entries st).
Proof.
  intros export. eexists. split; [reflexivity|].
  apply (entries_are_indexed export [PyInt 4; PyDict [("mapping", PyDict [])]]);
    reflexivity.
Defined.

(** X5. The loop over the conversations only appends: the messages and
    the entries it starts from are kept at the head of those it ends
    with, and the count of skipped conversations never goes down. *)
Theorem extract_loop_appends (i : nat) (convos : list value) (st : extraction) :
  all_user_messages st `prefix_of` all_user_messages (extract_loop i convos st)
  ∧ error_entries st `prefix_of` error_entries (extract_loop i convos st)
  ∧ skipped_conversations st ≤ skipped_conversations (extract_loop i convos st).
Proof.
  split_and!.
  - rewrite extract_loop_messages. by eexists.
  - destruct (extract_loop_entries i convos st) as (added & -> & _). by eexists.
  - rewrite extract_loop_skipped. lia.
Qed.

(** ** Conversations that raise *)

Lemma for_each_raises {A St} (f : A → St → body St) (l1 : list A) (a : A) (l2 : list A) :
  (∀ s ee, ∃ e ee', f a s ee = (inl e, ee')) →
  ∀ s ee, ∃ e ee', for_each f (l1 ++ a :: l2) s ee = (inl e, ee').
Proof.
  intros Ha s ee. rewrite for_each_app.
  destruct (for_each f l1 s ee) as [[e|s1] ee1]; [by eauto|].
  simpl. unfold bind. destruct (Ha s1 ee1) as (e & ee' & ->). eauto.
Qed.

(** on a node that passes the tests of lines 117-124, the step is the
    loop over its parts *)
Lemma node_step_user_node i node_id node parts cm ee :
  user_node node parts →
  node_step i (node_id, node) cm ee
  = bind (lift (iterate parts)) (λ parts, for_each (part_step i node_id) parts cm) ee.
Proof.
  intros (n & m & a & c & -> & Hmsg & Hauthor & Hrole & Hcontent & Hparts).
  unfold node_step, call_get, dict_get. rewrite Hmsg.
  assert (truthy (PyDict m) = true) as Ht by (by destruct m).
  unfold bind at 1, lift at 1, ret at 1. rewrite Ht.
  cbn [negb]. rewrite Hauthor. unfold bind at 1, lift at 1, ret at 1.
  rewrite Hrole. unfold bind at 1, lift at 1, ret at 1.
  cbn [eq_str]. rewrite String.eqb_refl. cbn [negb].
  rewrite Hcontent. unfold bind at 1, lift at 1, ret at 1.
  rewrite Hparts. unfold bind at 1, lift at 1, ret at 1. done.
Qed.

(** X6. A conversation is lost whole when one part of one of its user
    nodes is an audio transcription whose text is not a string: it yields
    no message, whatever its other parts and nodes hold, and is counted
    as skipped. *)
Theorem non_string_audio_text_loses_conversation (i : nat) (st : extraction)
    (kvs items1 items2 : list (string * value)) (node_id : string) (node : value)
    (parts1 parts2 : list value) (d : list (string * value)) (text : value) :
  dict_lookup kvs "mapping" = Some (PyDict (items1 ++ (node_id, node) :: items2)) →
  user_node node (PyList (parts1 ++ PyDict d :: parts2)) →
  dict_lookup d "content_type" = Some (PyStr "audio_transcription") →
  dict_lookup d "text" = Some text →
  (∀ s, text ≠ PyStr s) →
  all_user_messages (conversation_step i (PyDict kvs) st) = all_user_messages st
  ∧ skipped_conversations (conversation_step i (PyDict kvs) st)
    = S (skipped_conversations st).
Proof.
  intros Hmap (n & m & a & c & -> & Hmsg & Hauthor & Hrole & Hcontent & Hparts)
    Htag Htext Hnot.
  assert (∀ j cm ee, ∃ e ee', part_step j node_id (PyDict d) cm ee = (inl e, ee')) as Hpart.
  { intros j cm ee. unfold part_step, dict_get. rewrite Htag, Htext. simpl.
    unfold bind. destruct text; simpl; try by eauto. by destruct (Hnot s). }
  assert (∀ j cm ee, ∃ e ee', node_step j (node_id, PyDict n) cm ee = (inl e, ee')) as Hnode.
  { intros j cm ee. rewrite (node_step_user_node j node_id (PyDict n)
      (PyList (parts1 ++ PyDict d :: parts2))) by by eexists _, _, _, _.
    unfold bind. simpl. apply for_each_raises. intros. apply Hpart. }
  assert (∃ e, (conversation_body 0 (PyDict kvs) []).1 = inl e) as [e He].
  { unfold conversation_body, call_get, dict_get. rewrite Hmap.
    assert (truthy (PyDict (items1 ++ (node_id, PyDict n) :: items2)) = true) as Ht
      by (by destruct items1).
    unfold bind at 1, lift at 1, ret at 1. rewrite Ht. cbn [negb call_items].
    unfold bind at 1, lift at 1, ret at 1. unfold bind at 1.
    destruct (for_each_raises (node_step 0) items1 (node_id, PyDict n) items2
                (Hnode 0) [] []) as (e & ee' & ->).
    by eexists. }
  rewrite conversation_step_messages, conversation_step_skipped.
  unfold convo_messages, convo_skipped. rewrite He.
  split; [by rewrite app_nil_r|lia].
Qed.

Lemma non_string_audio_text_loses_conversation_witness :
  let node :=
    PyDict [("message", PyDict [
      ("author", PyDict [("role", PyStr "user")]);
      ("content", PyDict [("parts", PyList [
         PyStr "a message";
         PyDict [("content_type", PyStr "audio_transcription"); ("text", PyNone)];
         PyStr "another"])])])] in
  let convo := PyDict [("mapping", PyDict [("n1", node)])] in
  all_user_messages (conversation_step 0 convo extraction_start) = []
  ∧ skipped_conversations (conversation_step 0 convo extraction_start) = 1.
Proof.
  intros node convo.
  apply (non_string_audio_text_loses_conversation 0 extraction_start
           [("mapping", PyDict [("n1", node)])] [] [] "n1" node
           [PyStr "a message"] [PyStr "another"]
           [("content_type", PyStr "audio_transcription"); ("text", PyNone)] PyNone);
    try reflexivity; [|done].
  by eexists _, _, _, _.
Defined.

Lemma conversation_body_not_dict i convo ee :
  (∀ d, convo ≠ PyDict d) →
  conversation_body i convo ee = (inl (AttributeError (type_name convo) "get"), ee).
Proof. intros Hnd. destruct convo; try done. by destruct (Hnd items). Qed.

Lemma extract_loop_not_dict i convos st :
  Forall (λ convo, ∀ d, convo ≠ PyDict d) convos →
  extract_loop i convos st
  = {| all_user_messages := all_user_messages st;
       skipped_conversations := skipped_conversations st + length convos;
       error_entries :=
         error_entries st
         ++ imap (λ k convo,
                    exception_entry (i + k) convo (AttributeError (type_name convo) "get"))
              convos |}.
Proof.
  intros Hnd. revert i st. induction Hnd as [|convo rest Hc _ IH]; intros i st; simpl.
  - rewrite Nat.add_0_r, app_nil_r. by destruct st.
  - rewrite IH. unfold conversation_step. rewrite conversation_body_not_dict by done.
    simpl. f_equal; [lia|]. rewrite <- app_assoc. simpl. rewrite Nat.add_0_r.
    do 2 f_equal. apply imap_ext. intros k c _. simpl. f_equal. lia.
Qed.

(** X7. When no element that the export yields is a JSON object, as for
    an export that is itself an object (its keys are visited) or a string
    (its characters are), no message is extracted, every element is
    counted as skipped, and there is one ["exception"] entry per element,
    in order. *)
Theorem non_object_conversations_are_skipped (conversations_data : value)
    (convos : list value) :
  iterate conversations_data = inr convos →
  Forall (λ convo, ∀ d, convo ≠ PyDict d) convos →
  extract conversations_data
  = inr {| all_user_messages := [];
           skipped_conversations := length convos;
           error_entries :=
             imap (λ k convo,
                     exception_entry k convo (AttributeError (type_name convo) "get"))
               convos |}.
Proof.
  intros Hit Hnd. unfold extract. rewrite Hit.
  by rewrite (extract_loop_not_dict 0 convos extraction_start Hnd).
Qed.

Lemma non_object_conversations_are_skipped_witness :
  extract (PyDict [("title", PyStr "a"); ("mapping", PyDict [])])
  = inr {| all_user_messages := [];
           skipped_conversations := 2;
           error_entries :=
             [exception_entry 0 (PyStr "title") (AttributeError "str" "get");
              exception_entry 1 (PyStr "mapping") (AttributeError "str" "get")] |}.
Proof.
  apply (non_object_conversations_are_skipped
           (PyDict [("title", PyStr "a"); ("mapping", PyDict [])])
           [PyStr "title"; PyStr "mapping"]); [reflexivity|].
  repeat constructor; done.
Defined.

(** ** The lines of the output *)

Lemma app_assoc_str a b c : (a +:+ b) +:+ c = a +:+ b +:+ c.
Proof.
  induction a as [|x a IH]; [done|].
  change (String x ((a +:+ b) +:+ c) = String x (a +:+ b +:+ c)). by f_equal.
Qed.

(** a line is fixed text around the escaped assistant content *)
Lemma dumps_json_line msg :
  Json.dumps (json_line msg)
  = line_head +:+ Json.escape (assistant_content msg) +:+ line_tail.
Proof.
  unfold json_line. generalize (assistant_content msg). intros content.
  cbn. rewrite !app_assoc_str.
  change (Json.encode_basestring content +:+ "}" +:+ "]" +:+ "}")
    with (String PyStr.dquote ((Json.escape content +:+ String PyStr.dquote EmptyString)
                               +:+ "}]}")).
  rewrite app_assoc_str. reflexivity.
Qed.

Lemma count_char_app c a b : count_char c (a +:+ b) = count_char c a + count_char c b.
Proof.
  induction a as [|x a IH]; [done|].
  change (count_char c (String x (a +:+ b)) = count_char c (String x a) + count_char c b).
  simpl. rewrite IH. lia.
Qed.

Lemma escape_char_no_newline c : count_char (ascii_of_nat 10) (Json.escape_char c) = 0.
Proof. destruct c as [[] [] [] [] [] [] [] []]; reflexivity. Qed.

Lemma escape_no_newline s : count_char (ascii_of_nat 10) (Json.escape s) = 0.
Proof.
  induction s as [|c r IH]; [done|].
  change (Json.escape (String c r)) with (Json.escape_char c +:+ Json.escape r).
  by rewrite count_char_app, escape_char_no_newline, IH.
Qed.

Lemma line_no_newline msg : count_char (ascii_of_nat 10) (Json.dumps (json_line msg)) = 0.
Proof.
  rewrite dumps_json_line, !count_char_app, escape_no_newline. reflexivity.
Qed.

Lemma file_text_newlines lines :
  Forall (λ line, count_char (ascii_of_nat 10) line = 0) lines →
  count_char (ascii_of_nat 10) (file_text lines) = length lines.
Proof.
  induction 1 as [|line rest Hline _ IH]; [done|].
  change (file_text (line :: rest)) with (line +:+ newline +:+ file_text rest).
  rewrite !count_char_app, Hline, IH. reflexivity.
Qed.

Lemma unescape_escape_char c rest :
  unescape (Json.escape_char c +:+ rest) = String c <$> unescape rest.
Proof. destruct c as [[] [] [] [] [] [] [] []]; reflexivity. Qed.

Lemma unescape_escape s : unescape (Json.escape s) = Some s.
Proof.
  induction s as [|c r IH]; [done|].
  change (Json.escape (String c r)) with (Json.escape_char c +:+ Json.escape r).
  by rewrite unescape_escape_char, IH.
Qed.

Lemma escape_inj s1 s2 : Json.escape s1 = Json.escape s2 → s1 = s2.
Proof.
  intros H. apply (f_equal unescape) in H. rewrite !unescape_escape in H. by injection H.
Qed.

(** X8. A line of the output is fixed text around the escaped assistant
    content, the content is read back from it by undoing the escapes, and
    two messages give the same line only when they give the same
    assistant content. *)
Theorem line_round_trip (msg1 msg2 : string) :
  Json.dumps (json_line msg1)
  = line_head +:+ Json.escape (assistant_content msg1) +:+ line_tail
  ∧ unescape (Json.escape (assistant_content msg1)) = Some (assistant_content msg1)
  ∧ (Json.dumps (json_line msg1) = Json.dumps (json_line msg2) →
     assistant_content msg1 = assistant_content msg2).
Proof.
  split_and!; [apply dumps_json_line|apply unescape_escape|].
  rewrite !dumps_json_line. intros H.
  apply (inj (String.app line_head)) in H.
  apply app_inv_tail_str in H. by apply escape_inj.
Qed.

Section OutputFile.

Variable get_encoding : option Encoding.
Context {Seen : Type} `{!PySet Seen} `{!PySetLaws Seen}.

(** X9. No line of the output holds a newline, so the text written to
    the output file has exactly one newline per record. *)
Theorem one_record_per_line (messages : list string) (max_tokens : Z) (flag : bool) :
  Forall (λ line, count_char (ascii_of_nat 10) line = 0)
    (format_to_jsonl get_encoding messages max_tokens flag)
  ∧ count_char (ascii_of_nat 10)
      (file_text (format_to_jsonl get_encoding messages max_tokens flag))
    = length (chat_records get_encoding messages max_tokens flag).
Proof.
  assert (Forall (λ line, count_char (ascii_of_nat 10) line = 0)
            (format_to_jsonl get_encoding messages max_tokens flag)) as Hlines.
  { rewrite format_to_jsonl_records by apply _. unfold chat_records.
    rewrite <- list_fmap_compose. apply Forall_fmap, Forall_forall.
    intros msg _. apply line_no_newline. }
  split; [done|]. rewrite file_text_newlines by done.
  rewrite format_to_jsonl_records by apply _. by rewrite length_fmap.
Qed.

End OutputFile.

Lemma one_record_per_line_witness :
  count_char (ascii_of_nat 10)
    (file_text (format_to_jsonl None (Seen:=gset string)
                  ["two" +:+ newline +:+ "lines"; "one"] 2048 true))
  = length (chat_records None (Seen:=gset string)
              ["two" +:+ newline +:+ "lines"; "one"] 2048 true).
Proof.
  exact (proj2 (one_record_per_line None (Seen:=gset string)
                  ["two" +:+ newline +:+ "lines"; "one"] 2048 true)).
Defined.

(** ** The passes of the formatter, further *)

Lemma keep_first_NoDup prev l :
  NoDup l → (∀ x, x ∈ l → x ∉ prev) → keep_first prev l = l.
Proof.
  intros Hnd. revert prev. induction Hnd as [|x r Hx _ IH]; intros prev Hdis; simpl; [done|].
  rewrite decide_False by (apply Hdis; by left). f_equal. apply IH.
  intros y Hy. rewrite not_elem_of_cons. split; [by intros ->|].
  apply Hdis. by right.
Qed.

(** keeping first occurrences and filtering can be done in either order *)
Lemma keep_first_filter (P : string → Prop) `{!∀ x, Decision (P x)} prev l :
  keep_first prev (filter P l) = filter P (keep_first prev l).
Proof.
  rewrite !keep_first_spec. revert prev.
  induction l as [|x r IH]; intros prev; [done|].
  destruct (decide (P x)) as [HP|HP].
  - rewrite filter_cons_True by done. simpl.
    rewrite !filter_cons. destruct (decide (x ∉ prev)) as [Hx|Hx].
    + rewrite filter_cons_True by done. f_equal.
      rewrite !list_filter_filter.
      rewrite <- (filter_not_in_nil (Spec.deduplication_pass (filter P r))).
      rewrite IH, filter_not_in_nil, !list_filter_filter.
      apply list_filter_iff. intros y. tauto.
    + rewrite !list_filter_filter.
      rewrite <- (filter_not_in_nil (Spec.deduplication_pass (filter P r))).
      rewrite IH, filter_not_in_nil, !list_filter_filter.
      apply list_filter_iff. intros y. tauto.
  - rewrite filter_cons_False by done. rewrite IH. simpl.
    rewrite filter_cons. destruct (decide (x ∉ prev)) as [Hx|Hx].
    + rewrite filter_cons_False by done. rewrite !list_filter_filter.
      apply list_filter_iff. intros y. split; [|tauto].
      intros [Hy ?]. split_and!; [done|done|]. by intros ->.
    + rewrite !list_filter_filter. apply list_filter_iff. intros y. split; [|tauto].
      intros [Hy ?]. split_and!; [done|done|]. by intros ->.
Qed.

Lemma app_empty_r_str s : s +:+ EmptyString = s.
Proof.
  induction s as [|c r IH]; [done|].
  change (String c (r +:+ EmptyString) = String c r). by f_equal.
Qed.

Lemma take_prefix n s : str_prefix (PyStr.take n s) s.
Proof.
  revert s. induction n as [|n IH]; intros [|c r]; simpl; try by eexists.
  destruct (IH r) as [rest Hrest]. exists rest.
  change (String c r = String c (PyStr.take n r +:+ rest)). by f_equal.
Qed.

(** X10. When the backend fails on a text, what the truncation returns is
    a prefix of the text, for every limit. *)
Theorem fallback_truncation_is_prefix (get_encoding : option Encoding) (text : string)
    (limit : Z) :
  backend_fails get_encoding text →
  str_prefix (truncate_to_tokens get_encoding text limit) text.
Proof.
  intros Hfail. unfold truncate_to_tokens.
  destruct (_ <=? _)%Z; [exists EmptyString; by rewrite app_empty_r_str|].
  destruct get_encoding as [encoding|]; [simpl in Hfail; rewrite Hfail|];
    apply take_prefix.
Qed.

Lemma fallback_truncation_is_prefix_witness :
  str_prefix (truncate_to_tokens None "abcdefghij" (-1)) "abcdefghij"
  ∧ truncate_to_tokens None "abcdefghij" (-1) = "abcdef".
Proof.
  split; [|reflexivity].
  apply (fallback_truncation_is_prefix None "abcdefghij" (-1) I).
Defined.

Section FormatterPasses.

Variable get_encoding : option Encoding.
Context {Seen : Type} `{!PySet Seen} `{!PySetLaws Seen}.

(** X11. remove_duplicates returns a list without duplicates that has
    the elements of its argument, and applying it again changes nothing. *)
Theorem remove_duplicates_is_a_set (messages : list string) :
  NoDup (remove_duplicates messages)
  ∧ (∀ msg, msg ∈ remove_duplicates messages ↔ msg ∈ messages)
  ∧ remove_duplicates (remove_duplicates messages) = remove_duplicates messages.
Proof.
  rewrite !remove_duplicates_keep_first by apply _. split_and!.
  - apply NoDup_keep_first.
  - intros msg. rewrite elem_of_keep_first. split; [tauto|].
    intros ?. split; [done|apply not_elem_of_nil].
  - apply keep_first_NoDup; [apply NoDup_keep_first|]. intros. apply not_elem_of_nil.
Qed.

(** X12. Removing duplicates and filtering empty entries give the same
    list in either order. *)
Theorem remove_duplicates_filter_commute (messages : list string) :
  filter_empty_entries (remove_duplicates messages)
  = remove_duplicates (filter_empty_entries messages).
Proof.
  rewrite !remove_duplicates_keep_first by apply _.
  unfold filter_empty_entries. symmetry. apply keep_first_filter.
Qed.

(** X13. Every message passed to the formatter is accounted for: with
    deduplication, the lines of the output, the duplicates removed and the
    empty entries removed add up to the messages; without it, the lines
    and the empty entries removed do. The count of processed messages is
    the number of lines, and the count of truncated messages is at most
    the number of messages. *)
Theorem message_accounting (messages : list string) (max_tokens : Z) :
  let limited := (truncation_loop get_encoding max_tokens messages [] 0).1 in
  let deduplicated := remove_duplicates_loop limited set_new [] 0 in
  length (format_to_jsonl get_encoding messages max_tokens true)
    + removed_count deduplicated.1 + deduplicated.2 = length messages
  ∧ length (format_to_jsonl get_encoding messages max_tokens false)
      + removed_count limited = length messages
  ∧ (∀ flag,
       (format_loop (token_limited_messages get_encoding messages max_tokens flag) [] 0).2
       = length (format_to_jsonl get_encoding messages max_tokens flag))
  ∧ (truncation_loop get_encoding max_tokens messages [] 0).2 ≤ length messages.
Proof.
  intros limited deduplicated.
  assert (length limited = length messages) as Hlimited.
  { unfold limited. rewrite truncation_loop_fst. simpl. by rewrite length_fmap. }
  assert (∀ l, length (filter_empty_entries l) + removed_count l = length l) as Hfilter.
  { intros l. unfold removed_count.
    pose proof (length_filter (λ msg, PyStr.truthy (PyStr.strip msg)) l).
    unfold filter_empty_entries. lia. }
  assert (∀ flag, length (format_to_jsonl get_encoding messages max_tokens flag)
                  = length (token_limited_messages get_encoding messages max_tokens flag))
    as Hlines.
  { intros flag. unfold format_to_jsonl. rewrite format_loop_fst. simpl.
    by rewrite length_fmap. }
  split_and!.
  - rewrite Hlines. unfold token_limited_messages. fold limited.
    unfold remove_duplicates. fold deduplicated. rewrite Hfilter.
    pose proof (remove_duplicates_loop_snd limited set_new [] 0) as Hsum.
    fold deduplicated in Hsum. simpl in Hsum. lia.
  - rewrite Hlines. unfold token_limited_messages. fold limited. rewrite Hfilter. done.
  - intros flag. rewrite format_loop_snd, Hlines. done.
  - rewrite truncation_loop_snd.
    pose proof (length_filter (λ msg, (max_tokens < count_tokens get_encoding msg)%Z)
                  messages). simpl. lia.
Qed.

(** X14. When every message passed to the formatter is trimmed and
    within the limit, as are the messages of the extractor that need no
    truncation, the output has one record per distinct message, in the
    order of first occurrence, with the content of a space, the message
    and a newline; no two records have the same content. *)
Theorem untruncated_records (messages : list string) (max_tokens : Z) :
  Forall trimmed messages →
  Forall (λ msg, (count_tokens get_encoding msg ≤ max_tokens)%Z) messages →
  emitted_contents get_encoding messages max_tokens true
  = (λ msg, PyStr (" " +:+ msg +:+ newline)) <$> remove_duplicates messages
  ∧ NoDup (emitted_contents get_encoding messages max_tokens true).
Proof.
  intros Htrim Hlimit.
  assert (token_limit get_encoding max_tokens <$> messages = messages) as Hsame.
  { rewrite <- (list_fmap_id messages) at 2. apply Forall_fmap_ext.
    eapply Forall_impl; [exact Hlimit|]. intros msg Hmsg. simpl in Hmsg.
    unfold token_limit.
    destruct (Z.ltb_spec max_tokens (count_tokens get_encoding msg)); [lia|done]. }
  assert (emitted_contents get_encoding messages max_tokens true
          = (λ msg, PyStr (" " +:+ msg +:+ newline)) <$> remove_duplicates messages)
    as Heq.
  { rewrite emitted_contents_eq, token_limited_messages_passes by apply _.
    rewrite Hsame, remove_duplicates_keep_first by apply _.
    assert (Forall trimmed (keep_first [] messages)) as Hkept.
    { apply Forall_forall. intros msg Hin. rewrite Forall_forall in Htrim.
      apply Htrim. eapply elem_of_sublist; [done|apply keep_first_sublist]. }
    assert (filter (λ msg, PyStr.truthy (PyStr.strip msg)) (keep_first [] messages)
            = keep_first [] messages) as ->.
    { induction Hkept as [|msg rest [_ Hb] _ IH]; [done|].
      rewrite filter_cons_True; [by rewrite IH|]. by rewrite truthy_strip, Hb. }
    apply Forall_fmap_ext. eapply Forall_impl; [exact Hkept|].
    intros msg Hmsg. unfold assistant_content. by rewrite trimmed_rstrip. }
  split; [done|]. rewrite Heq. apply NoDup_fmap_2_strong.
  - intros m1 m2 _ _ [= H]. by apply (app_inv_tail_str m1 m2 newline).
  - rewrite remove_duplicates_keep_first by apply _. apply NoDup_keep_first.
Qed.

End FormatterPasses.

Lemma remove_duplicates_is_a_set_witness :
  NoDup (remove_duplicates (Seen:=gset string) ["b"; "a"; "b"; "c"; "a"])
  ∧ remove_duplicates (Seen:=gset string) ["b"; "a"; "b"; "c"; "a"] = ["b"; "a"; "c"].
Proof.
  split; [|by vm_compute].
  exact (proj1 (remove_duplicates_is_a_set (Seen:=gset string) ["b"; "a"; "b"; "c"; "a"])).
Defined.

Lemma remove_duplicates_filter_commute_witness :
  filter_empty_entries (remove_duplicates (Seen:=gset string) ["a"; " "; "a"; " "; "b"])
  = remove_duplicates (Seen:=gset string) (filter_empty_entries ["a"; " "; "a"; " "; "b"]).
Proof.
  exact (remove_duplicates_filter_commute (Seen:=gset string) ["a"; " "; "a"; " "; "b"]).
Defined.

Lemma message_accounting_witness :
  length (format_to_jsonl None (Seen:=gset string) ["abc defg"; "abc"; "abc"; "  "] 1 true)
  + removed_count
      (remove_duplicates_loop (Seen:=gset string)
         (truncation_loop None 1 ["abc defg"; "abc"; "abc"; "  "] [] 0).1 ∅ [] 0).1
  + (remove_duplicates_loop (Seen:=gset string)
       (truncation_loop None 1 ["abc defg"; "abc"; "abc"; "  "] [] 0).1 ∅ [] 0).2
  = 4.
Proof.
  exact (proj1 (message_accounting None (Seen:=gset string)
                  ["abc defg"; "abc"; "abc"; "  "] 1)).
Defined.

Lemma untruncated_records_witness :
  emitted_contents (Some char_encoding) (Seen:=gset string) ["hi"; "there"; "hi"] 2048 true
  = [PyStr (" hi" +:+ newline); PyStr (" there" +:+ newline)].
Proof.
  assert (Forall trimmed ["hi"; "there"; "hi"]) as Htrim by (repeat constructor).
  assert (Forall (λ msg, (count_tokens (Some char_encoding) msg ≤ 2048)%Z)
            ["hi"; "there"; "hi"]) as Hlimit by (repeat constructor; by vm_compute).
  destruct (untruncated_records (Some char_encoding) (Seen:=gset string)
              ["hi"; "there"; "hi"] 2048 Htrim Hlimit) as [Heq _].
  rewrite Heq. by vm_compute.
Defined.

(** ** The truncation *)

(** the comparison of line 193 repeats the one of line 240 *)
Lemma token_limit_is_truncate get_encoding max_tokens msg :
  token_limit get_encoding max_tokens msg = truncate_to_tokens get_encoding msg max_tokens.
Proof.
  unfold token_limit, truncate_to_tokens.
  destruct (Z.ltb_spec max_tokens (count_tokens get_encoding msg)),
    (Z.leb_spec (count_tokens get_encoding msg) max_tokens); try lia; done.
Qed.

Section TruncationContract.

Variable get_encoding : option Encoding.

Hypothesis backend_ok :
  match get_encoding with
  | Some encoding => well_behaved encoding
  | None => True
  end.

(** X15. For a limit that is not negative, and a backend that is well
    behaved or fails, what the truncation returns counts at most the
    limit, and truncating it again changes nothing. *)
Theorem truncation_contract (text : string) (max_tokens : Z) :
  (0 ≤ max_tokens)%Z →
  (count_tokens get_encoding (truncate_to_tokens get_encoding text max_tokens)
   ≤ max_tokens)%Z
  ∧ truncate_to_tokens get_encoding (truncate_to_tokens get_encoding text max_tokens)
      max_tokens
    = truncate_to_tokens get_encoding text max_tokens.
Proof.
  intros Hmax.
  assert (count_tokens get_encoding (truncate_to_tokens get_encoding text max_tokens)
          ≤ max_tokens)%Z as Hcount.
  { rewrite <- token_limit_is_truncate. by apply count_tokens_token_limit. }
  split; [done|]. unfold truncate_to_tokens at 1.
  destruct (Z.leb_spec
    (count_tokens get_encoding (truncate_to_tokens get_encoding text max_tokens))
    max_tokens); [done|lia].
Qed.

End TruncationContract.

Lemma truncation_contract_witness :
  (count_tokens (Some char_encoding) (truncate_to_tokens (Some char_encoding) "hello world" 4)
   ≤ 4)%Z
  ∧ truncate_to_tokens None (truncate_to_tokens None "hello world" 1) 1
    = truncate_to_tokens None "hello world" 1.
Proof.
  split.
  - apply (truncation_contract (Some char_encoding) char_encoding_well_behaved). lia.
  - apply (truncation_contract None I). lia.
Defined.

(** ** The files of a run *)

Lemma write_lines_frame path lines w w' p :
  write_lines path lines w = Some w' →
  unwritable w' = unwritable w ∧ (p ≠ path → files w' !! p = files w !! p).
Proof.
  unfold write_lines. case_decide; [done|]. intros [= <-]. simpl.
  split; [done|]. intros Hp. by rewrite lookup_insert_ne.
Qed.

Lemma write_errors_frame path entries w p :
  unwritable (write_errors (Some path) entries w) = unwritable w
  ∧ (p ≠ path → files (write_errors (Some path) entries w) !! p = files w !! p)
  ∧ (path ∈ unwritable w → write_errors (Some path) entries w = w).
Proof.
  unfold write_errors. destruct entries as [|entry rest]; [done|].
  destruct (PyStr.truthy path); [|done].
  destruct (write_lines path _ w) as [w'|] eqn:Hw; [|done].
  destruct (write_lines_frame _ _ _ _ p Hw) as [Hu Hf]. split_and!; [done|done|].
  intros Hin. unfold write_lines in Hw. by rewrite decide_True in Hw.
Qed.

Section MainFiles.

Variable get_encoding : option Encoding.
Context {Seen : Type} `{!PySet Seen}.

(** X16. A run changes no file other than the output file and
    [errors.jsonl], whatever the input. *)
Theorem main_touches_two_files (a : args) (input : loaded) (w : world) (p : string) :
  p ≠ output_file a → p ≠ "errors.jsonl" →
  files (main get_encoding a input w).2 !! p = files w !! p.
Proof.
  intros Hout Herr. unfold main.
  destruct (load_conversations input) as [conversations|]; [|done].
  destruct (py_len conversations); [done|].
  unfold extract_user_messages. destruct (extract conversations) as [e|st]; [done|].
  destruct (write_errors_frame "errors.jsonl" (error_entries st) w p) as (_ & Hf & _).
  destruct (write_jsonl_output _ _ _) as [w2|] eqn:Hw; simpl; [|by apply Hf].
  destruct (write_lines_frame _ _ _ _ p Hw) as [_ Hf2]. rewrite Hf2 by done. by apply Hf.
Qed.

(** X17. When the output file cannot be opened for writing, the run
    ends with status 1 and the output file is as it was; the diagnostics
    file has been written by then. *)
Theorem unwritable_output_is_fatal (a : args) (conversations : value) (st : extraction)
    (w : world) :
  extract conversations = inr st →
  output_file a ∈ unwritable w →
  main get_encoding a (Loaded conversations) w
  = (1%Z, write_errors (Some "errors.jsonl") (error_entries st) w)
  ∧ files (main get_encoding a (Loaded conversations) w).2 !! output_file a
    = files w !! output_file a.
Proof.
  intros Hst Hun.
  assert (∃ n, py_len conversations = inr n) as [n Hn].
  { unfold extract in Hst. destruct conversations; try done; by eexists. }
  assert (main get_encoding a (Loaded conversations) w
          = (1%Z, write_errors (Some "errors.jsonl") (error_entries st) w)) as Hmain.
  { unfold main, extract_user_messages, load_conversations. rewrite Hn, Hst.
    unfold write_jsonl_output, write_lines.
    destruct (write_errors_frame "errors.jsonl" (error_entries st) w "") as (-> & _).
    by rewrite decide_True. }
  split; [done|]. rewrite Hmain. cbn [snd].
  destruct (decide (output_file a = "errors.jsonl")) as [Heq|Hne].
  - destruct (write_errors_frame "errors.jsonl" (error_entries st) w "") as (_ & _ & Hw).
    rewrite Hw; [done|]. by rewrite <- Heq.
  - by apply write_errors_frame.
Qed.

(** X18. A run that logs no diagnostic does not touch [errors.jsonl]:
    the diagnostics of an earlier run stay in place. *)
Theorem stale_diagnostics_are_kept (a : args) (conversations : value) (st : extraction)
    (w : world) :
  extract conversations = inr st →
  error_entries st = [] →
  output_file a ≠ "errors.jsonl" →
  files (main get_encoding a (Loaded conversations) w).2 !! "errors.jsonl"
  = files w !! "errors.jsonl".
Proof.
  intros Hst Hnone Hne.
  assert (∃ n, py_len conversations = inr n) as [n Hn].
  { unfold extract in Hst. destruct conversations; try done; by eexists. }
  unfold main, extract_user_messages, load_conversations. rewrite Hn, Hst, Hnone.
  simpl. destruct (write_jsonl_output _ _ _) as [w2|] eqn:Hw; simpl; [|done].
  by destruct (write_lines_frame _ _ _ _ "errors.jsonl" Hw) as [_ ->].
Qed.

End MainFiles.

Lemma main_touches_two_files_witness :
  let a := Args "conversations.json" "out.jsonl" 2048 false in
  let w := World {["notes.txt" := "mine"]} ∅ in
  files (main None (Seen:=gset string) a (Loaded (PyList [PyInt 1])) w).2 !! "notes.txt"
  = Some "mine".
Proof.
  intros a w.
  rewrite (main_touches_two_files None (Seen:=gset string) a (Loaded (PyList [PyInt 1])) w
             "notes.txt"); done.
Defined.

Lemma unwritable_output_is_fatal_witness :
  let a := Args "conversations.json" "out.jsonl" 2048 false in
  let w := World {["out.jsonl" := "old"]} {["out.jsonl"]} in
  (main None (Seen:=gset string) a (Loaded (PyList [PyInt 1])) w).1 = 1%Z
  ∧ files (main None (Seen:=gset string) a (Loaded (PyList [PyInt 1])) w).2 !! "out.jsonl"
    = Some "old".
Proof.
  intros a w.
  assert (output_file a ∈ unwritable w) as Hun
    by (unfold a, w; simpl; apply elem_of_singleton_2; reflexivity).
  destruct (unwritable_output_is_fatal None (Seen:=gset string) a (PyList [PyInt 1])
              _ w eq_refl Hun) as [Hmain Hfile].
  split; [by rewrite Hmain|exact Hfile].
Defined.

Lemma stale_diagnostics_are_kept_witness :
  let a := Args "conversations.json" "out.jsonl" 2048 false in
  let w := World {["errors.jsonl" := "from an earlier run"]} ∅ in
  files (main None (Seen:=gset string) a (Loaded (PyList [])) w).2 !! "errors.jsonl"
  = Some "from an earlier run".
Proof.
  intros a w.
  rewrite (stale_diagnostics_are_kept None (Seen:=gset string) a (PyList [])
             extraction_start w); done.
Defined.

(** ** The records as the other scripts read them *)

Lemma rstrip_app_newline a : PyStr.rstrip (a +:+ newline) = PyStr.rstrip a.
Proof.
  induction a as [|c r IH]; [done|].
  change (PyStr.rstrip (String c (r +:+ newline)) = PyStr.rstrip (String c r)).
  simpl. by rewrite IH.
Qed.

Lemma strip_assistant_content msg :
  PyStr.strip (assistant_content msg) = PyStr.strip msg.
Proof.
  unfold PyStr.strip at 1. rewrite <- lstrip_rstrip. unfold assistant_content.
  rewrite <- app_assoc_str, rstrip_app_newline.
  rewrite lstrip_rstrip.
  change (PyStr.lstrip (" " +:+ PyStr.rstrip msg)) with (PyStr.lstrip (PyStr.rstrip msg)).
  rewrite lstrip_rstrip, rstrip_rstrip. done.
Qed.

(** X19. From a record of the output, extract_assistant_content of
    filter_blog_style.py returns the message without its leading and
    trailing whitespace, and extract_content_from_messages of
    estimate_finetune_cost.py returns the fixed instruction followed by
    the assistant content. *)
Theorem records_as_read_back (msg : string) :
  extract_assistant_content (json_line msg) = inr (PyStr.strip msg)
  ∧ extract_content_from_messages (json_line msg)
    = inr ("Write a blog post in my voice." +:+ assistant_content msg).
Proof.
  split; [|reflexivity].
  change (extract_assistant_content (json_line msg))
    with (inr (PyStr.strip (assistant_content msg)) : result string).
  by rewrite strip_assistant_content.
Qed.

(** the readers raise on what is not a record: a line that parses to a
    list has no [get] *)
Example readers_raise_on_a_list :
  extract_assistant_content (PyList []) = inl (AttributeError "list" "get")
  ∧ extract_content_from_messages (PyDict [("messages", PyList [PyDict [("content", PyNone)]])])
    = inl (TypeError ("can only concatenate str (not "
                      +:+ String PyStr.dquote "NoneType"
                      +:+ String PyStr.dquote ") to str")).
Proof. split; reflexivity. Qed.

(** X20. Whether filter_blog_style.py keeps a record depends on the
    message alone: is_bloggy of the content it reads back from the record
    is is_bloggy of the message, so the space and the newline of the
    convention never decide. *)
Theorem bloggy_ignores_convention (msg : string) :
  ∃ text, extract_assistant_content (json_line msg) = inr text
          ∧ is_bloggy text = is_bloggy msg
          ∧ is_bloggy (assistant_content msg) = is_bloggy msg.
Proof.
  exists (PyStr.strip msg). split_and!.
  - change (extract_assistant_content (json_line msg))
      with (inr (PyStr.strip (assistant_content msg)) : result string).
    by rewrite strip_assistant_content.
  - unfold is_bloggy. by rewrite strip_strip.
  - unfold is_bloggy. by rewrite strip_assistant_content.
Qed.

Example is_bloggy_cases :
  is_bloggy "I went out today. It rained a lot! Did I mind? Not at all, really." = true
  ∧ is_bloggy "How do I do this. It rained a lot! Did I mind? Not at all, really." = false
  ∧ is_bloggy "Too short. Yes! No?" = false
  ∧ is_bloggy "I ran curl today. It rained a lot! Did I mind? Not at all, really." = false.
Proof. split_and!; reflexivity. Qed.

Section Deduplication.

Variable get_encoding : option Encoding.
Context {Seen : Type} `{!PySet Seen} `{!PySetLaws Seen}.

(** X21. Deduplication only removes lines: the output with
    deduplication is a subsequence of the output without it. *)
Theorem deduplication_only_removes_lines (messages : list string) (max_tokens : Z) :
  format_to_jsonl get_encoding messages max_tokens true
  `sublist_of` format_to_jsonl get_encoding messages max_tokens false.
Proof.
  rewrite !format_to_jsonl_records by apply _. unfold chat_records.
  do 2 apply fmap_sublist.
  rewrite !token_limited_messages_passes by apply _. simpl.
  rewrite <- keep_first_filter. apply keep_first_sublist.
Qed.

End Deduplication.

Lemma deduplication_only_removes_lines_witness :
  format_to_jsonl None (Seen:=gset string) ["a"; "b"; "a"] 5 true
  `sublist_of` format_to_jsonl None (Seen:=gset string) ["a"; "b"; "a"] 5 false.
Proof.
  exact (deduplication_only_removes_lines None (Seen:=gset string) ["a"; "b"; "a"] 5).
Defined.

(** * The yield of a part, and the order of the nodes *)

(** ** Steps that only append *)












(** ** The yield of a structured part *)




(** ** Two runs *)




(** a key inserted twice keeps its first place and its last value *)
Example repeated_key :
  dict_of_pairs [("a", PyInt 1); ("b", PyInt 2); ("a", PyInt 3)]
  = [("a", PyInt 3); ("b", PyInt 2)].
Proof. reflexivity. Qed.

Section TwoRuns.

Variable get_encoding : option Encoding.
Context {Seen1 : Type} `{!PySet Seen1} `{!PySetLaws Seen1}.
Context {Seen2 : Type} `{!PySet Seen2} `{!PySetLaws Seen2}.


End TwoRuns.

